(** * GenUI gateway: a shallow embedding of [main.py] and [gemini_app.py]

    The two services are near copies of one another.  What they share
    (the history store, the correction of the endpoint URL, the clean-up
    of the generated markup) is embedded once; what differs (credential
    policy, prompts, model selection, artifact wrapper) lives in the
    modules [Main] and [GeminiApp].  Console output ([print]) is left
    out: nothing in the services reads it back. *)

From Stdlib Require Import String Ascii NArith ZArith QArith DecimalString Lia.
From Equations Require Import Equations.
From stdpp Require Import base list gmap.

Set Warnings "-register-all".
Local Open Scope N_scope.

(** ** Python strings

    A Python [str] is a sequence of Unicode code points; every operation
    the services use ([startswith], [in], [replace], [strip], slicing)
    works on code points, so a [str] is a list of code-point numbers. *)

Abbreviation str := (list N).

Definition lit (s : string) : str :=
  N_of_ascii <$> list_ascii_of_string s.

(** [not s] on a string: the empty string is the only falsy one. *)
Definition truthy (s : str) : bool :=
  match s with [] => false | _ :: _ => true end.

(** [s.startswith(p)] *)
Fixpoint startswith (p s : str) : bool :=
  match p, s with
  | [], _ => true
  | _ :: _, [] => false
  | a :: p', b :: s' => (a =? b) && startswith p' s'
  end.

(** [s.endswith(p)]: the last [len(p)] code points of [s] are [p]. *)
Definition endswith (p s : str) : bool :=
  (length p <=? length s)%nat && startswith p (drop (length s - length p) s).

(** [sub in s] *)
Fixpoint contains (sub s : str) : bool :=
  startswith sub s ||
  match s with
  | [] => false
  | _ :: s' => contains sub s'
  end.

(** ** Endpoint URL correction ([get_models], both services) *)

Definition HTTP : str := Eval vm_compute in lit "http".
Definition HTTP_SCHEME : str := Eval vm_compute in lit "http://".
Definition TTP : str := Eval vm_compute in lit "ttp".
Definition LETTER_H : str := Eval vm_compute in lit "h".
Definition GEMINI_HOST : str :=
  Eval vm_compute in lit "generativelanguage.googleapis.com".
Definition OPENAI_SEGMENT : str := Eval vm_compute in lit "/openai/".
Definition SLASH : str := Eval vm_compute in lit "/".
Definition OPENAI_SUFFIX : str := Eval vm_compute in lit "openai/".

(** The block of [get_models] that rewrites its [llm_url] argument before
    the client is built.  Each [let] is one assignment of the source. *)
Definition correct_llm_url (llm_url : str) : str :=
  if truthy llm_url then
    let llm_url :=
      if negb (startswith HTTP llm_url) then HTTP_SCHEME ++ llm_url
      else llm_url in
    let llm_url :=
      if startswith TTP llm_url then LETTER_H ++ llm_url else llm_url in
    if contains GEMINI_HOST llm_url && negb (contains OPENAI_SEGMENT llm_url)
    then
      let llm_url :=
        if negb (endswith SLASH llm_url) then llm_url ++ SLASH
        else llm_url in
      llm_url ++ OPENAI_SUFFIX
    else llm_url
  else llm_url.

(** ** Whitespace stripping and replacement *)

(** [c.isspace()] for one code point, as CPython's Unicode database has
    it: the ASCII controls 9-13 and 28-31, the space, NEL, NBSP and the
    space separators of the higher planes. *)
Definition isspace (c : N) : bool :=
  ((9 <=? c) && (c <=? 13)) || ((28 <=? c) && (c <=? 32))
  || (c =? 133) || (c =? 160) || (c =? 5760)
  || ((8192 <=? c) && (c <=? 8202))
  || (c =? 8232) || (c =? 8233) || (c =? 8239) || (c =? 8287)
  || (c =? 12288).

Fixpoint lstrip (s : str) : str :=
  match s with
  | [] => []
  | c :: s' => if isspace c then lstrip s' else s
  end.

Definition rstrip (s : str) : str := reverse (lstrip (reverse s)).

(** [s.strip()] *)
Definition strip (s : str) : str := rstrip (lstrip s).

(** [s.replace(old, new)] for a non-empty [old = o :: old']: scan from the
    left, and after a match resume behind it (matches never overlap). *)
Equations? replace_go (o : N) (old' new s : str) : str by wf (length s) lt :=
  replace_go o old' new [] := [];
  replace_go o old' new (c :: s') with startswith (o :: old') (c :: s') => {
    | true := new ++ replace_go o old' new (drop (length old') s');
    | false := c :: replace_go o old' new s' }.
Proof. all: cbn; try rewrite length_drop; lia. Qed.

(** [s.replace(old, new)]; with an empty [old] Python puts [new] before
    every code point and at the end. *)
Definition str_replace (old new s : str) : str :=
  match old with
  | [] => new ++ flat_map (λ c, c :: new) s
  | o :: old' => replace_go o old' new s
  end.

Definition FENCE_HTML : str := Eval vm_compute in lit "```html".
Definition FENCE : str := Eval vm_compute in lit "```".

(** The clean-up of the remote content in [generate_ui] (both services):
    [content.strip()], then both fence markers are replaced by the empty
    string, [FENCE_HTML] first, and the result is stripped again. *)
Definition cleanup (content : str) : str :=
  let generated_html := strip content in
  strip (str_replace FENCE [] (str_replace FENCE_HTML [] generated_html)).


(** ** Writing text to a UTF-8 file

    A [str] can hold lone surrogates (U+D800 to U+DFFF), which UTF-8
    cannot encode: writing such a string to a file opened with
    [encoding="utf-8"] raises [UnicodeEncodeError]. *)

Definition is_surrogate (c : N) : bool := (55296 <=? c) && (c <=? 57343).

Definition encodable (s : str) : bool :=
  forallb (λ c, negb (is_surrogate c)) s.

(** The number of surrogates [s] starts with. *)
Fixpoint surrogate_run (s : str) : nat :=
  match s with
  | [] => 0
  | c :: s' => if is_surrogate c then S (surrogate_run s') else 0
  end.

(** The first surrogate of [s]: its position, counted from [position],
    the code point, and the length of the run of surrogates it starts. *)
Fixpoint first_surrogate (position : nat) (s : str) : option (nat * N * nat) :=
  match s with
  | [] => None
  | c :: s' =>
      if is_surrogate c then Some (position, c, S (surrogate_run s'))
      else first_surrogate (S position) s'
  end.

Definition hex_digit (d : N) : N := if d <? 10 then 48 + d else 87 + d.

(** A code point below 65536 on four lower-case hexadecimal digits. *)
Definition hex4 (c : N) : str :=
  [hex_digit (c / 4096 mod 16); hex_digit (c / 256 mod 16);
   hex_digit (c / 16 mod 16); hex_digit (c mod 16)].

Definition str_of_nat (n : nat) : str :=
  lit (NilEmpty.string_of_uint (Nat.to_uint n)).

(** [str(e)] for the [UnicodeEncodeError] that encoding [s] raises, if it
    raises: the codec reports the first run of surrogates. *)
Definition encode_error (s : str) : option str :=
  match first_surrogate 0 s with
  | None => None
  | Some (start, c, 1%nat) =>
      Some (lit "'utf-8' codec can't encode character '\u" ++ hex4 c
            ++ lit "' in position " ++ str_of_nat start
            ++ lit ": surrogates not allowed")
  | Some (start, _, run) =>
      Some (lit "'utf-8' codec can't encode characters in position "
            ++ str_of_nat start ++ lit "-" ++ str_of_nat (start + run - 1)
            ++ lit ": surrogates not allowed")
  end.

(** ** Values, files and exceptions *)

(** What [json.load] can return and [json.dump] can take. *)
Inductive pyval :=
| PNone
| PBool (b : bool)
| PInt (z : Z)
| PFloat (repr : str)
| PStr (s : str)
| PList (l : list pyval)
| PDict (d : list (str * pyval)).

(** The text of [history.json], up to what the json module makes of it:
    either text that [json.load] rejects, or the encoding of a value,
    which [json.load] gives back as [json.dump] took it. *)
Inductive json_text :=
| Garbled (raw : str)
| Encoded (v : pyval).

Inductive exn :=
| HTTPException (status_code : N) (detail : str)
| Exception (message : str).

Definition json_load (t : json_text) : exn + pyval :=
  match t with
  | Garbled _ => inl (Exception (lit "Expecting value"))
  | Encoded v => inr v
  end.

Definition json_dump (v : pyval) : json_text := Encoded v.

Definition str_of_N (n : N) : str :=
  lit (NilEmpty.string_of_uint (N.to_uint n)).

(** [str(e)] *)
Definition exn_str (e : exn) : str :=
  match e with
  | HTTPException code detail => str_of_N code ++ lit ": " ++ detail
  | Exception message => message
  end.

(** Whether [json.dump(v, f, ensure_ascii=False)] can write [v] to a UTF-8
    file: every string in it, keys included, must be encodable. *)
Fixpoint encodable_value (v : pyval) : bool :=
  match v with
  | PStr s => encodable s
  | PList l => forallb encodable_value l
  | PDict d => forallb (λ kv, encodable kv.1 && encodable_value kv.2) d
  | _ => true
  end.

(** ** The world the handlers run in *)

(** The OpenAI client: its constructor arguments. *)
Record client := AsyncOpenAI {
  client_api_key : str;
  client_base_url : option str;
}.

Record chat_request := {
  chat_model : str;
  chat_messages : list (str * str);   (* role, content *)
  chat_temperature : Q;
}.

Inductive remote_call :=
| ChatCompletionsCreate (c : client) (r : chat_request)
| ModelsList (c : client).

Record datetime := {
  year : N; month : N; day : N; hour : N; minute : N; second : N;
}.

(** [history_file] is [generated_logs/history.json] ([None]: the file does
    not exist), [artifacts] the other files of [generated_logs] by name,
    [clock_reads] counts the calls of [datetime.now()], and [remote_calls]
    lists the calls sent to the remote service, latest first. *)
Record world := {
  history_file : option json_text;
  artifacts : gmap str str;
  clock_reads : nat;
  remote_calls : list remote_call;
}.
(** What the outside answers: the clock at its n-th reading, and the remote
    service at its n-th call, where a chat response is the list of
    [choices[i].message.content] (each possibly [None]).  Two things the
    libraries decide are taken from the outside as well: the exception
    the constructor [AsyncOpenAI] raises on its arguments, if any (a
    malformed base URL, missing credentials), and, when [json.dump]
    cannot encode a value, the text it has put in the file by then and
    the text of the exception it raises. *)
Record env := {
  clock : nat → datetime;
  chat_answer : nat → client → chat_request → exn + list (option str);
  models_answer : nat → client → exn + list str;
  client_error : client → option exn;
  dump_leftover : pyval → str;
  dump_error : pyval → str;
}.

(** A handler: a world transformer that returns a value or raises. *)
Definition M (A : Type) : Type := world → (exn + A) * world.

#[global] Instance M_ret : MRet M := λ A a w, (inr a, w).

#[global] Instance M_bind : MBind M := λ A B f m w,
  match m w with
  | (inl e, w') => (inl e, w')
  | (inr a, w') => f a w'
  end.

Definition raise {A} (e : exn) : M A := λ w, (inl e, w).

(** [try: body  except Exception as e: handler e]; what [body] did to the
    world before it raised stays done. *)
Definition try_except {A} (body : M A) (handler : exn → M A) : M A := λ w,
  match body w with
  | (inl e, w') => handler e w'
  | (inr a, w') => (inr a, w')
  end.

(** ** Primitive effects *)

Definition read_history_file : M (option json_text) := λ w,
  (inr (history_file w), w).

(** [with open(os.path.join(LOG_DIR, filename), "w") as f: f.write(text)]:
    [open] creates or empties the file; [write] encodes the whole text
    first, so when it raises nothing has been written. *)
Definition write_artifact (filename text : str) : M unit := λ w,
  match encode_error text with
  | None =>
      (inr (), {| history_file := history_file w;
                  artifacts := <[filename := text]> (artifacts w);
                  clock_reads := clock_reads w;
                  remote_calls := remote_calls w |})
  | Some message =>
      (inl (Exception message),
       {| history_file := history_file w;
          artifacts := <[filename := []]> (artifacts w);
          clock_reads := clock_reads w;
          remote_calls := remote_calls w |})
  end.

Definition sent (call : remote_call) (w : world) : world :=
  {| history_file := history_file w;
     artifacts := artifacts w;
     clock_reads := clock_reads w;
     remote_calls := call :: remote_calls w |}.

Section Outside.
Context (E : env).

(** [with open(HISTORY_FILE, "w") as f: json.dump(v, f, ...)]: [open]
    empties the file; when [json.dump] meets a string it cannot encode
    it raises, and the file keeps what was written before, which no
    longer parses. *)
Definition write_history_file (v : pyval) : M unit := λ w,
  if encodable_value v then
    (inr (), {| history_file := Some (json_dump v);
                artifacts := artifacts w;
                clock_reads := clock_reads w;
                remote_calls := remote_calls w |})
  else
    (inl (Exception (dump_error E v)),
     {| history_file := Some (Garbled (dump_leftover E v));
        artifacts := artifacts w;
        clock_reads := clock_reads w;
        remote_calls := remote_calls w |}).

(** [AsyncOpenAI(api_key=..., base_url=...)] *)
Definition construct (c : client) : M client := λ w,
  match client_error E c with
  | Some e => (inl e, w)
  | None => (inr c, w)
  end.

(** [datetime.datetime.now()] *)
Definition now : M datetime := λ w,
  (inr (clock E (clock_reads w)),
   {| history_file := history_file w;
      artifacts := artifacts w;
      clock_reads := S (clock_reads w);
      remote_calls := remote_calls w |}).

(** [await client.chat.completions.create(...)] *)
Definition chat_completions_create (c : client) (r : chat_request)
  : M (list (option str)) := λ w,
  (chat_answer E (length (remote_calls w)) c r,
   sent (ChatCompletionsCreate c r) w).

(** [await client.models.list()] *)
Definition models_list (c : client) : M (list str) := λ w,
  (models_answer E (length (remote_calls w)) c, sent (ModelsList c) w).

(** ** The history store ([load_history], [save_history]) *)

Definition load_history : M pyval :=
  file ← read_history_file;
  match file with
  | None => mret (PList [])                 (* not os.path.exists *)
  | Some t =>
      match json_load t with
      | inr v => mret v
      | inl _ => mret (PList [])            (* bare except *)
      end
  end.

(** [type(v).__name__] *)
Definition type_name (v : pyval) : str :=
  match v with
  | PNone => lit "NoneType"
  | PBool _ => lit "bool"
  | PInt _ => lit "int"
  | PFloat _ => lit "float"
  | PStr _ => lit "str"
  | PList _ => lit "list"
  | PDict _ => lit "dict"
  end.

(** [history.insert(0, entry)] exists on lists only; then the first 100
    items are dumped over the old file. *)
Definition save_history (entry : pyval) : M unit :=
  history ← load_history;
  match history with
  | PList history =>
      let history := entry :: history in
      write_history_file (PList (take 100 history))
  | other =>
      raise (Exception (lit "'" ++ type_name other
                        ++ lit "' object has no attribute 'insert'"))
  end.

End Outside.

(** [GET /history] *)
Definition get_history : M pyval := load_history.

(** [strftime]: a field printed in decimal, zero-padded to [width]. *)
Definition zfill (width : nat) (s : str) : str :=
  replicate (width - length s) 48 ++ s.

Definition COLON : str := Eval vm_compute in lit ":".
Definition UNDERSCORE : str := Eval vm_compute in lit "_".

(** [t.strftime("%H:%M:%S")] *)
Definition strftime_HMS (t : datetime) : str :=
  zfill 2 (str_of_N (hour t)) ++ COLON ++ zfill 2 (str_of_N (minute t))
  ++ COLON ++ zfill 2 (str_of_N (second t)).

(** [t.strftime("%Y%m%d_%H%M%S")] *)
Definition strftime_Ymd_HMS (t : datetime) : str :=
  zfill 4 (str_of_N (year t)) ++ zfill 2 (str_of_N (month t))
  ++ zfill 2 (str_of_N (day t)) ++ UNDERSCORE
  ++ zfill 2 (str_of_N (hour t)) ++ zfill 2 (str_of_N (minute t))
  ++ zfill 2 (str_of_N (second t)).

(** ** Requests and replies *)

Record UIRequest := {
  current_html : str;
  user_action : str;
  api_key : str;
  system_prompt : str;
  llm_url : str;
  model : str;
}.

(** The body of a successful [POST /generate]. *)
Record html_response := { html : str }.

Definition NL : str := [10].
Definition DQ : str := [34].

(** [response.choices[0].message.content], about to be stripped. *)
Definition first_choice_content (choices : list (option str)) : M str :=
  match choices with
  | [] => raise (Exception (lit "list index out of range"))
  | None :: _ =>
      raise (Exception (lit "'NoneType' object has no attribute 'strip'"))
  | Some content :: _ => mret content
  end.

(** The dictionary handed to [save_history]. *)
Definition history_entry (intent filename time model : str) : pyval :=
  PDict [(lit "intent", PStr intent); (lit "filename", PStr filename);
         (lit "time", PStr time); (lit "model", PStr model)].

(** ** [GET /models] (the same in both services) *)

Definition get_models (E : env) (llm_url api_key : str) : M (list str) :=
  if negb (truthy llm_url) && negb (truthy api_key) then
    raise (HTTPException 400 (lit "LLM URL or API Key is required."))
  else
    let llm_url := correct_llm_url llm_url in
    try_except
      (c ← construct E
             (AsyncOpenAI api_key
                (if truthy llm_url then Some llm_url else None));
       models_list E c)
      (λ e,
        let error_msg := exn_str e in
        if contains (lit "base_url") error_msg
           || contains (lit "URL") error_msg
           || contains (lit "404") error_msg
        then
          raise (HTTPException 400
            (lit "Invalid LLM URL (Did you include /openai/ for Gemini?): "
             ++ error_msg))
        else raise (HTTPException 500 error_msg)).

(** ** [main.py] *)

Module Main.

Definition DEFAULT_SYSTEM_PROMPT : str :=
  NL
  ++ lit "    You are an expert Senior UI/UX Engineer specialized in modern SaaS dashboards and web applications." ++ NL
  ++ lit "    Your goal is to generate extremely high-quality, professional, and visually stunning HTML components using Tailwind CSS." ++ NL
  ++ NL
  ++ lit "    [STRICT OUTPUT RULES]" ++ NL
  ++ lit "    1. Return ONLY raw HTML code. " ++ NL
  ++ lit "    2. NO markdown formatting (DO NOT use ```html or ```)." ++ NL
  ++ lit "    3. NO explanation or conversational text." ++ NL
  ++ lit "    4. Use Tailwind CSS for all styling. Use vibrant colors, glassmorphism, and modern shadows." ++ NL
  ++ lit "    5. The UI must be responsive and feel " ++ DQ ++ lit "alive" ++ DQ ++ lit " (hover effects, smooth transitions)." ++ NL
  ++ lit "    6. All interactive elements (buttons, links) should look clickable but DO NOT include custom JavaScript functions or `onclick` handlers." ++ NL
  ++ lit "    7. If the user interaction says " ++ DQ ++ lit "User pushed [Button Name] button" ++ DQ ++ lit ", interpret this as a navigation or state change request and generate the corresponding NEXT screen." ++ NL
  ++ lit "    ".

(** The f-string [user_prompt]: its text up to the slice of
    [current_html], the slice, and the text behind it. *)
Definition user_prompt_head (req : UIRequest) : str :=
  NL
  ++ lit "    [User Action/Intent]: " ++ user_action req ++ NL
  ++ lit "    " ++ NL
  ++ lit "    [Current HTML Context]:" ++ NL
  ++ lit "    ```html" ++ NL
  ++ lit "    ".

Definition USER_PROMPT_TAIL : str :=
  NL
  ++ lit "    ```" ++ NL
  ++ lit "    " ++ NL
  ++ lit "    Update the UI based on the user's action. Maintain consistent branding and layout." ++ NL
  ++ lit "    ".

Definition user_prompt (req : UIRequest) : str :=
  user_prompt_head req ++ take 5000 (current_html req) ++ USER_PROMPT_TAIL.

(** The standalone document written to the artifact file. *)
Definition log_content (generated_html : str) : str :=
  lit "<!DOCTYPE html>" ++ NL
  ++ lit "<html>" ++ NL
  ++ lit "<head>" ++ NL
  ++ lit "    <meta charset=" ++ DQ ++ lit "UTF-8" ++ DQ ++ lit ">" ++ NL
  ++ lit "    <script src=" ++ DQ ++ lit "https://cdn.tailwindcss.com" ++ DQ ++ lit "></script>" ++ NL
  ++ lit "    <link href=" ++ DQ ++ lit "https://fonts.googleapis.com/css2?family=Inter:wght@400;600;700&display=swap" ++ DQ ++ lit " rel=" ++ DQ ++ lit "stylesheet" ++ DQ ++ lit ">" ++ NL
  ++ lit "    <style>body { font-family: 'Inter', sans-serif; }</style>" ++ NL
  ++ lit "</head>" ++ NL
  ++ lit "<body class=" ++ DQ ++ lit "p-10 bg-slate-50" ++ DQ ++ lit ">" ++ NL
  ++ lit "    " ++ generated_html ++ NL
  ++ lit "</body>" ++ NL
  ++ lit "</html>" ++ NL.

(** The request sent to the remote service. *)
Definition chat_request_of (req : UIRequest) : chat_request :=
  let system_prompt :=
    if truthy (system_prompt req) then system_prompt req
    else DEFAULT_SYSTEM_PROMPT in
  {| chat_model := if truthy (model req) then model req else lit "gpt-4o";
     chat_messages := [(lit "system", system_prompt);
                       (lit "user", user_prompt req)];
     chat_temperature := (4 # 10)%Q |}.

(** [client_args]: the base URL is passed only when one is given. *)
Definition client_of (req : UIRequest) : client :=
  AsyncOpenAI (api_key req)
    (if truthy (llm_url req) then Some (llm_url req) else None).

(** [POST /generate]; the client is built before the [try]. *)
Definition generate_ui (E : env) (req : UIRequest) : M html_response :=
  if negb (truthy (api_key req)) && negb (truthy (llm_url req)) then
    raise (HTTPException 400 (lit "API Key or Local LLM URL is required."))
  else
    c ← construct E (client_of req);
    try_except
      (choices ← chat_completions_create E c (chat_request_of req);
       content ← first_choice_content choices;
       let generated_html := cleanup content in
       t ← now E;
       let timestamp := strftime_HMS t in
       t ← now E;
       let file_timestamp := strftime_Ymd_HMS t in
       let filename := lit "ui_" ++ file_timestamp ++ lit ".html" in
       write_artifact filename (log_content generated_html);;
       save_history E
         (history_entry (user_action req) filename timestamp (model req));;
       mret {| html := generated_html |})
      (λ e, raise (HTTPException 500 (exn_str e))).

End Main.

(** ** [gemini_app.py] *)

Module GeminiApp.

Definition DEFAULT_SYSTEM_PROMPT : str :=
  NL
  ++ lit "    You are an expert Senior UI/UX Engineer specialized in modern SaaS dashboards and web applications." ++ NL
  ++ lit "    Your goal is to generate extremely high-quality, professional, and visually stunning HTML components using Tailwind CSS." ++ NL
  ++ lit "    Use vibrant colors, glassmorphism, and modern shadows." ++ NL
  ++ lit "    " ++ NL
  ++ lit "    [STRICT OUTPUT RULES]" ++ NL
  ++ lit "    1. Return ONLY raw HTML code. " ++ NL
  ++ lit "    2. NO markdown formatting." ++ NL
  ++ lit "    3. NO explanation." ++ NL
  ++ lit "    ".

Definition user_prompt_head (req : UIRequest) : str :=
  NL
  ++ lit "    [User Action/Intent]: " ++ user_action req ++ NL
  ++ lit "    [Current HTML Context]:" ++ NL
  ++ lit "    ".

Definition USER_PROMPT_TAIL : str :=
  NL
  ++ lit "    " ++ NL
  ++ lit "    Update the UI based on the user's action." ++ NL
  ++ lit "    ".

Definition user_prompt (req : UIRequest) : str :=
  user_prompt_head req ++ take 5000 (current_html req) ++ USER_PROMPT_TAIL.

Definition log_content (generated_html : str) : str :=
  lit "<!DOCTYPE html><html><head><script src='https://cdn.tailwindcss.com'></script></head><body>"
  ++ generated_html ++ lit "</body></html>".

Definition chat_request_of (req : UIRequest) : chat_request :=
  let system_prompt :=
    if truthy (system_prompt req) then system_prompt req
    else DEFAULT_SYSTEM_PROMPT in
  {| chat_model := model req;
     chat_messages := [(lit "system", system_prompt);
                       (lit "user", user_prompt req)];
     chat_temperature := (4 # 10)%Q |}.

Definition client_of (req : UIRequest) : client :=
  AsyncOpenAI (api_key req) (Some (llm_url req)).

(** [POST /generate]; the client is built before the [try]. *)
Definition generate_ui (E : env) (req : UIRequest) : M html_response :=
  if negb (truthy (api_key req)) then
    raise (HTTPException 400 (lit "Gemini API Key is required."))
  else
    c ← construct E (client_of req);
    try_except
      (choices ← chat_completions_create E c (chat_request_of req);
       content ← first_choice_content choices;
       let generated_html := cleanup content in
       t ← now E;
       let timestamp := strftime_HMS t in
       t ← now E;
       let file_timestamp := strftime_Ymd_HMS t in
       let filename := lit "ui_" ++ file_timestamp ++ lit ".html" in
       write_artifact filename (log_content generated_html);;
       save_history E
         (history_entry (user_action req) filename timestamp (model req));;
       mret {| html := generated_html |})
      (λ e, raise (HTTPException 500 (exn_str e))).

End GeminiApp.

(** ** Auxiliary notions used to state the properties *)

(** The URL as the Gemini rule of [correct_llm_url] sees it: the scheme
    has been put in front when [llm_url] did not start with [http]. *)
Definition with_scheme (llm_url : str) : str :=
  if startswith HTTP llm_url then llm_url else HTTP_SCHEME ++ llm_url.

(** Appending a batch of entries, oldest first. *)
Fixpoint append_all (E : env) (entries : list pyval) : M unit :=
  match entries with
  | [] => mret ()
  | entry :: rest => save_history E entry;; append_all E rest
  end.

(** A log directory with nothing in it yet. *)
Definition fresh_world : world :=
  {| history_file := None; artifacts := ∅;
     clock_reads := 0; remote_calls := [] |}.

(** The name [generate_ui] gives its artifact: the first clock reading
    goes into the history entry, the second one into the file name. *)
Definition artifact_name (E : env) (w : world) : str :=
  lit "ui_" ++ strftime_Ymd_HMS (clock E (S (clock_reads w))) ++ lit ".html".

(** The world a successful generation leaves behind, for a handler that
    sent [call], wrote [document] and found the log [history]. *)
Definition generated (E : env) (req : UIRequest) (call : remote_call)
    (document : str) (history : list pyval) (w : world) : world :=
  let entry :=
    history_entry (user_action req) (artifact_name E w)
      (strftime_HMS (clock E (clock_reads w))) (model req) in
  {| history_file := Some (json_dump (PList (take 100 (entry :: history))));
     artifacts := <[artifact_name E w := document]> (artifacts w);
     clock_reads := S (S (clock_reads w));
     remote_calls := call :: remote_calls w |}.

(** A request with another [current_html]. *)
Definition with_current_html (req : UIRequest) (markup : str) : UIRequest :=
  {| current_html := markup; user_action := user_action req;
     api_key := api_key req; system_prompt := system_prompt req;
     llm_url := llm_url req; model := model req |}.

(** What [load_history] makes of the history file of [w]. *)
Definition stored_log (w : world) : pyval :=
  match history_file w with
  | None => PList []
  | Some t => match json_load t with
              | inr v => v
              | inl _ => PList []
              end
  end.

(** A sample outside and a sample request, to run the handlers on. *)
Definition sample_env : env :=
  {| clock := λ n,
       {| year := 2024; month := 5; day := 17;
          hour := 9; minute := 30; second := N.of_nat n |};
     chat_answer := λ _ _ _, inr [Some (lit "```html<p>hi</p>```")];
     models_answer := λ _ _, inr [lit "gpt-4o"];
     client_error := λ _, None;
     dump_leftover := λ _, [];
     dump_error := λ _, lit "surrogates not allowed" |}.

Definition sample_request : UIRequest :=
  {| current_html := lit "<div></div>"; user_action := lit "open settings";
     api_key := lit "sk-test"; system_prompt := []; llm_url := [];
     model := [] |}.

Definition unconfigured_request : UIRequest :=
  {| current_html := lit "<div></div>"; user_action := lit "open settings";
     api_key := []; system_prompt := []; llm_url := [];
     model := lit "gpt-4o" |}.

(** Unfolds a handler down to its primitive effects. *)
Ltac handler_steps :=
  unfold try_except, construct, chat_completions_create,
    first_choice_content, now, write_artifact, sent, raise,
    mbind, M_bind, mret, M_ret.

(** The store invariant: the history file loads as a list of at most
    100 entries. *)
Definition log_ok (w : world) : Prop :=
  ∃ l, stored_log w = PList l ∧ (length l ≤ 100)%nat.

Definition is_list (v : pyval) : bool :=
  match v with PList _ => true | _ => false end.

(** The test of [get_models] on the text of a remote failure. *)
Definition mentions_url (error_msg : str) : bool :=
  contains (lit "base_url") error_msg
  || contains (lit "URL") error_msg
  || contains (lit "404") error_msg.

(** The client [get_models] builds from its two arguments. *)
Definition models_client (llm_url api_key : str) : client :=
  AsyncOpenAI api_key
    (if truthy llm_url then Some (correct_llm_url llm_url) else None).

(** The clock readings with a four-digit year, as [datetime.now()] gives
    them. *)
Definition valid_datetime (t : datetime) : Prop :=
  (1000 ≤ year t ≤ 9999) ∧ (1 ≤ month t ≤ 12) ∧ (1 ≤ day t ≤ 31)
  ∧ hour t ≤ 23 ∧ minute t ≤ 59 ∧ second t ≤ 59.

(** The number a string of decimal digits stands for. *)
Definition decimal_value (s : str) : N :=
  foldl (λ acc c, 10 * acc + (c - 48)) 0 s.


Definition mute_env : env :=
  {| clock := clock sample_env;
     chat_answer := λ _ _ _, inr [None];
     models_answer := λ _ _, inr [];
     client_error := client_error sample_env;
     dump_leftover := dump_leftover sample_env;
     dump_error := dump_error sample_env |}.

(** A log directory whose history file holds a JSON object. *)
Definition object_world : world :=
  {| history_file := Some (Encoded (PDict [])); artifacts := ∅;
     clock_reads := 0; remote_calls := [] |}.

Definition keyless_request : UIRequest :=
  {| current_html := lit "<div></div>"; user_action := lit "open settings";
     api_key := []; system_prompt := [];
     llm_url := lit "generativelanguage.googleapis.com/v1beta";
     model := lit "gemini-1.5-pro-latest" |}.

Definition gemini_request : UIRequest :=
  {| current_html := lit "<div></div>"; user_action := lit "open settings";
     api_key := lit "AIza-test"; system_prompt := [];
     llm_url := lit "generativelanguage.googleapis.com/v1beta";
     model := lit "gemini-1.5-pro-latest" |}.


(** The world after [generate_ui] has called the remote service and
    dealt with its artifact file, left holding [text], with the history
    file [file]. *)
Definition after_write (E : env) (call : remote_call) (text : str)
    (file : option json_text) (w : world) : world :=
  {| history_file := file;
     artifacts := <[artifact_name E w := text]> (artifacts w);
     clock_reads := S (S (clock_reads w));
     remote_calls := call :: remote_calls w |}.

(** What [generate_ui] comes to once the credentials are accepted, by
    cases on the construction of the client, the remote answer, the
    two writes and the stored history, for a service that builds the
    client [c] and the request [r] and wraps the markup with [wrap]. *)
Definition generation_outcome (E : env) (req : UIRequest) (c : client)
    (r : chat_request) (wrap : str → str) (w : world)
    : (exn + html_response) * world :=
  let call := ChatCompletionsCreate c r in
  match client_error E c with
  | Some e => (inl e, w)
  | None =>
  match chat_answer E (length (remote_calls w)) c r with
  | inl e => (inl (HTTPException 500 (exn_str e)), sent call w)
  | inr [] =>
      (inl (HTTPException 500 (lit "list index out of range")), sent call w)
  | inr (None :: _) =>
      (inl (HTTPException 500
              (lit "'NoneType' object has no attribute 'strip'")),
       sent call w)
  | inr (Some content :: _) =>
      let document := wrap (cleanup content) in
      match encode_error document with
      | Some message =>
          (inl (HTTPException 500 message),
           after_write E call [] (history_file w) w)
      | None =>
          match stored_log w with
          | PList l =>
              let log :=
                PList (take 100
                  (history_entry (user_action req) (artifact_name E w)
                     (strftime_HMS (clock E (clock_reads w))) (model req)
                   :: l)) in
              if encodable_value log then
                (inr {| html := cleanup content |},
                 after_write E call document (Some (json_dump log)) w)
              else
                (inl (HTTPException 500 (dump_error E log)),
                 after_write E call document
                   (Some (Garbled (dump_leftover E log))) w)
          | v =>
              (inl (HTTPException 500
                      (lit "'" ++ type_name v
                       ++ lit "' object has no attribute 'insert'")),
               after_write E call document (history_file w) w)
          end
      end
  end
  end.









Definition surrogate_env : env :=
  {| clock := clock sample_env;
     chat_answer := λ _ _ _, inr [Some (lit "<p>" ++ [55296] ++ lit "</p>")];
     models_answer := models_answer sample_env;
     client_error := client_error sample_env;
     dump_leftover := dump_leftover sample_env;
     dump_error := dump_error sample_env |}.

Definition surrogate_request : UIRequest :=
  {| current_html := lit "<div></div>";
     user_action := lit "open " ++ [56320];
     api_key := lit "sk-test"; system_prompt := []; llm_url := [];
     model := lit "gpt-4o" |}.

(** A field printed on [width] digits reads back as itself. *)
Definition prints_back (width : nat) (n : N) : bool :=
  (length (zfill width (str_of_N n)) =? width)%nat
  && (decimal_value (zfill width (str_of_N n)) =? n).

(** An outside whose clock stands still. *)
Definition frozen_env : env :=
  {| clock := λ _,
       {| year := 2024; month := 5; day := 17;
          hour := 9; minute := 30; second := 0 |};
     chat_answer := chat_answer sample_env;
     models_answer := models_answer sample_env;
     client_error := client_error sample_env;
     dump_leftover := dump_leftover sample_env;
     dump_error := dump_error sample_env |}.


(** * Properties *)

(** ** String predicates *)

Lemma startswith_true (p s : str) :
  startswith p s = true ↔ ∃ t, s = p ++ t.
Proof.
  revert s. induction p as [|a p IH]; intros s; simpl.
  - split; eauto.
  - destruct s as [|b s].
    + split; [done | intros [t Ht]; discriminate].
    + rewrite andb_true_iff, N.eqb_eq, IH. split.
      * intros [-> [t ->]]. eauto.
      * intros [t Ht]. injection Ht as -> ->. eauto.
Qed.

Lemma startswith_app (p s t : str) :
  startswith p s = true → startswith p (s ++ t) = true.
Proof.
  rewrite !startswith_true. intros [r ->]. exists (r ++ t).
  by rewrite app_assoc.
Qed.

Lemma contains_true (sub s : str) :
  contains sub s = true ↔ ∃ a b, s = a ++ sub ++ b.
Proof.
  induction s as [|c s IH].
  - simpl. rewrite orb_false_r, startswith_true. split.
    + intros [t Ht]. exists [], t. done.
    + intros (a & b & Hab). symmetry in Hab.
      apply app_eq_nil in Hab as [-> Hab]. eauto.
  - simpl. rewrite orb_true_iff, startswith_true, IH. split.
    + intros [[t Ht] | (a & b & ->)].
      * exists [], t. done.
      * exists (c :: a), b. done.
    + intros (a & b & Hab). destruct a as [|c' a].
      * left. eauto.
      * right. injection Hab as -> ->. eauto.
Qed.

Lemma endswith_true (p s : str) :
  endswith p s = true ↔ ∃ a, s = a ++ p.
Proof.
  unfold endswith. rewrite andb_true_iff, Nat.leb_le, startswith_true. split.
  - intros [Hlen [t Ht]].
    assert (length t = 0%nat) as Hnil.
    { apply (f_equal length) in Ht.
      rewrite length_drop, length_app in Ht. lia. }
    apply length_zero_iff_nil in Hnil as ->. rewrite app_nil_r in Ht.
    exists (take (length s - length p) s).
    rewrite <- Ht at 2. by rewrite take_drop.
  - intros [a ->]. rewrite length_app. split; [lia |].
    exists []. rewrite app_nil_r.
    replace (length a + length p - length p)%nat with (length a) by lia.
    by rewrite drop_app_length.
Qed.

Lemma contains_false_app (sub a b : str) :
  contains sub (a ++ b) = false → contains sub b = false.
Proof.
  intros Hab. destruct (contains sub b) eqn:Hb; [|done].
  apply contains_true in Hb as (x & y & ->).
  rewrite <- Hab. symmetry. apply contains_true.
  exists (a ++ x), y. by rewrite <- app_assoc.
Qed.

(** ** Endpoint URL correction *)

Example correct_llm_url_local :
  correct_llm_url (lit "localhost:11434/v1") = lit "http://localhost:11434/v1".
Proof. reflexivity. Qed.

Example correct_llm_url_gemini :
  correct_llm_url (lit "generativelanguage.googleapis.com/v1beta")
  = lit "http://generativelanguage.googleapis.com/v1beta/openai/".
Proof. reflexivity. Qed.

Example correct_llm_url_gemini_done :
  correct_llm_url (lit "https://generativelanguage.googleapis.com/v1beta/openai/")
  = lit "https://generativelanguage.googleapis.com/v1beta/openai/".
Proof. reflexivity. Qed.

Example correct_llm_url_empty : correct_llm_url [] = [].
Proof. reflexivity. Qed.

Lemma scheme_excludes_typo (v : str) :
  startswith HTTP v = true → startswith TTP v = false.
Proof.
  destruct v as [|c v]; [done |]. cbn [startswith HTTP TTP].
  destruct (104 =? c) eqn:Hc; [|done].
  apply N.eqb_eq in Hc as <-. reflexivity.
Qed.

Lemma with_scheme_has_scheme (u : str) :
  u ≠ [] → startswith HTTP (with_scheme u) = true.
Proof.
  intros Hu. unfold with_scheme.
  destruct (startswith HTTP u) eqn:Hs; [done |]. reflexivity.
Qed.

(** The typo rule never fires: when it is reached the URL starts with
    [http] already. *)
Lemma typo_rule_dead (u : str) :
  u ≠ [] → startswith TTP (with_scheme u) = false.
Proof. intros Hu. by apply scheme_excludes_typo, with_scheme_has_scheme. Qed.

(** [correct_llm_url] by cases, on a non-empty URL. *)
Lemma correct_llm_url_unfold (u : str) :
  u ≠ [] →
  correct_llm_url u =
    if contains GEMINI_HOST (with_scheme u)
       && negb (contains OPENAI_SEGMENT (with_scheme u))
    then (if endswith SLASH (with_scheme u) then with_scheme u
          else with_scheme u ++ SLASH) ++ OPENAI_SUFFIX
    else with_scheme u.
Proof.
  intros Hu. pose proof (typo_rule_dead u Hu) as Hdead.
  unfold correct_llm_url. destruct u as [|c u]; [done |].
  cbn [truthy]. unfold with_scheme in *.
  destruct (startswith HTTP (c :: u)); cbn [negb]; rewrite Hdead;
    destruct (_ && _); try done; by destruct (endswith _ _).
Qed.

Lemma correct_llm_url_has_scheme (u : str) :
  u ≠ [] → startswith HTTP (correct_llm_url u) = true.
Proof.
  intros Hu. rewrite correct_llm_url_unfold by done.
  pose proof (with_scheme_has_scheme u Hu) as Hs.
  destruct (_ && _); [|done].
  apply startswith_app. destruct (endswith _ _); [done |].
  by apply startswith_app.
Qed.

Lemma correct_llm_url_nonempty (u : str) :
  u ≠ [] → correct_llm_url u ≠ [].
Proof.
  intros Hu Hnil. pose proof (correct_llm_url_has_scheme u Hu) as Hs.
  rewrite Hnil in Hs. discriminate.
Qed.

Lemma with_scheme_id (v : str) :
  startswith HTTP v = true → with_scheme v = v.
Proof. unfold with_scheme. by intros ->. Qed.

Lemma correct_llm_url_idempotent (u : str) :
  correct_llm_url (correct_llm_url u) = correct_llm_url u.
Proof.
  destruct (decide (u = [])) as [-> | Hu]; [done |].
  rewrite (correct_llm_url_unfold (correct_llm_url u))
    by by apply correct_llm_url_nonempty.
  rewrite with_scheme_id by by apply correct_llm_url_has_scheme.
  rewrite (correct_llm_url_unfold u) by done.
  destruct (contains GEMINI_HOST (with_scheme u)
            && negb (contains OPENAI_SEGMENT (with_scheme u))) eqn:Hg.
  - set (v := if endswith SLASH (with_scheme u) then with_scheme u
              else with_scheme u ++ SLASH).
    assert (endswith SLASH v = true) as Hv.
    { subst v. destruct (endswith SLASH (with_scheme u)) eqn:He; [done |].
      apply endswith_true. eauto. }
    apply endswith_true in Hv as [a Ha].
    assert (contains OPENAI_SEGMENT (v ++ OPENAI_SUFFIX) = true) as ->.
    { apply contains_true. exists a, []. rewrite Ha, <- app_assoc. done. }
    by rewrite andb_false_r.
  - by rewrite Hg.
Qed.

(** C8.  A non-empty URL that does not start with [http] comes back with
    [http://] in front of it, the input following unchanged; all that can
    follow the input is the Gemini path suffix. *)
Theorem scheme_prepended (u : str) :
  u ≠ [] →
  startswith HTTP u = false →
  ∃ rest,
    correct_llm_url u = HTTP_SCHEME ++ u ++ rest
    ∧ (rest = [] ∨ rest = OPENAI_SUFFIX ∨ rest = SLASH ++ OPENAI_SUFFIX).
Proof.
  intros Hu Hs. rewrite correct_llm_url_unfold by done.
  unfold with_scheme. rewrite Hs.
  destruct (_ && _).
  - destruct (endswith _ _).
    + exists OPENAI_SUFFIX. rewrite <- app_assoc. auto.
    + exists (SLASH ++ OPENAI_SUFFIX). rewrite <- !app_assoc. auto.
  - exists []. rewrite app_nil_r. auto.
Qed.

Lemma scheme_prepended_witness :
  ∃ rest,
    correct_llm_url (lit "localhost:1234/v1")
    = HTTP_SCHEME ++ lit "localhost:1234/v1" ++ rest
    ∧ (rest = [] ∨ rest = OPENAI_SUFFIX ∨ rest = SLASH ++ OPENAI_SUFFIX).
Proof. apply scheme_prepended; [discriminate | reflexivity]. Defined.

(** C2.  On [ttps://api.example.com/v1] the correction does not put the
    missing [h] back: the scheme rule runs first and prefixes [http://],
    after which the typo rule no longer matches. *)
Theorem typo_not_repaired :
  correct_llm_url (lit "ttps://api.example.com/v1")
  = lit "http://ttps://api.example.com/v1"
  ∧ correct_llm_url (lit "ttps://api.example.com/v1")
    ≠ LETTER_H ++ lit "ttps://api.example.com/v1".
Proof. split; [reflexivity | discriminate]. Qed.

(** C7, counter-example.  A Gemini URL that ends in two slashes keeps both
    in front of the appended [openai/]. *)
Lemma gemini_double_slash_kept :
  let u := lit "https://generativelanguage.googleapis.com//" in
  contains GEMINI_HOST u = true
  ∧ contains OPENAI_SEGMENT u = false
  ∧ correct_llm_url u
    = lit "https://generativelanguage.googleapis.com//openai/"
  ∧ ¬ ∃ w, correct_llm_url u = w ++ SLASH ++ OPENAI_SUFFIX
           ∧ endswith SLASH w = false.
Proof.
  repeat split; try reflexivity.
  intros (w & Hw & He).
  change (correct_llm_url _)
    with (lit "https://generativelanguage.googleapis.com/"
          ++ SLASH ++ OPENAI_SUFFIX) in Hw.
  apply app_inv_tail in Hw. subst w. discriminate.
Qed.

(** C7, as amended.  When the URL (with its scheme) names the Gemini host
    and has no [/openai/] in it, the correction adds a slash only if the
    URL does not end in one and then appends [openai/]; so exactly one
    slash precedes [openai/] unless the URL ended in two.  Correcting a
    corrected URL changes nothing. *)
Theorem gemini_suffix_appended (u : str) :
  (u ≠ [] →
   contains GEMINI_HOST (with_scheme u) = true →
   contains OPENAI_SEGMENT (with_scheme u) = false →
   correct_llm_url u
   = (if endswith SLASH (with_scheme u) then with_scheme u
      else with_scheme u ++ SLASH) ++ OPENAI_SUFFIX
   ∧ (endswith (SLASH ++ SLASH) (with_scheme u) = false →
      ∃ w, correct_llm_url u = w ++ SLASH ++ OPENAI_SUFFIX
           ∧ endswith SLASH w = false))
  ∧ correct_llm_url (correct_llm_url u) = correct_llm_url u.
Proof.
  split; [| apply correct_llm_url_idempotent].
  intros Hu Hg Ho. rewrite correct_llm_url_unfold, Hg, Ho by done.
  cbn [negb andb]. split; [done |]. intros H2.
  destruct (endswith SLASH (with_scheme u)) eqn:He.
  - apply endswith_true in He as [a Ha]. exists a. rewrite Ha.
    split; [by rewrite <- app_assoc |].
    destruct (endswith SLASH a) eqn:Ha'; [|done].
    apply endswith_true in Ha' as [b ->].
    rewrite <- H2. symmetry. apply endswith_true. exists b.
    by rewrite Ha, <- app_assoc.
  - exists (with_scheme u). by rewrite <- app_assoc.
Qed.

Lemma gemini_suffix_appended_witness :
  let u := lit "https://generativelanguage.googleapis.com/v1beta" in
  contains GEMINI_HOST (with_scheme u) = true
  ∧ contains OPENAI_SEGMENT (with_scheme u) = false
  ∧ correct_llm_url u
    = lit "https://generativelanguage.googleapis.com/v1beta/openai/".
Proof.
  intros u. split; [reflexivity |]. split; [reflexivity |].
  destruct (gemini_suffix_appended u) as [Happ _].
  destruct Happ as [Heq _]; [discriminate | reflexivity | reflexivity |].
  exact Heq.
Defined.

(** ** Stripping and replacing *)

Lemma lstrip_suffix (s : str) : ∃ a, s = a ++ lstrip s.
Proof.
  induction s as [|c s [a IH]]; [by exists [] |]. simpl.
  destruct (isspace c).
  - exists (c :: a). by rewrite <- app_comm_cons, <- IH.
  - by exists [].
Qed.

Lemma rstrip_prefix (s : str) : ∃ b, s = rstrip s ++ b.
Proof.
  unfold rstrip. destruct (lstrip_suffix (reverse s)) as [a Ha].
  exists (reverse a). rewrite <- reverse_app, <- Ha.
  by rewrite reverse_involutive.
Qed.

Lemma strip_infix (s : str) : ∃ a b, s = a ++ strip s ++ b.
Proof.
  unfold strip. destruct (lstrip_suffix s) as [a Ha].
  destruct (rstrip_prefix (lstrip s)) as [b Hb].
  exists a, b. by rewrite <- Hb.
Qed.

(** Stripping cannot bring a substring into being. *)
Lemma contains_strip (p s : str) :
  contains p s = false → contains p (strip s) = false.
Proof.
  intros Hs. destruct (contains p (strip s)) eqn:Hp; [|done].
  apply contains_true in Hp as (x & y & Hxy).
  destruct (strip_infix s) as (a & b & Hab).
  rewrite <- Hs. symmetry. apply contains_true.
  exists (a ++ x), (y ++ b). rewrite Hab, Hxy.
  by rewrite <- !app_assoc.
Qed.

Lemma lstrip_head (s r : str) (c : N) :
  lstrip s = c :: r → isspace c = false.
Proof.
  induction s as [|d s IH]; simpl; [done |].
  destruct (isspace d) eqn:Hd; [done |]. by intros [= <- _].
Qed.

Lemma lstrip_idempotent (s : str) : lstrip (lstrip s) = lstrip s.
Proof.
  destruct (lstrip s) as [|c r] eqn:Hs; [done |].
  simpl. by rewrite (lstrip_head _ _ _ Hs).
Qed.

Lemma rstrip_idempotent (s : str) : rstrip (rstrip s) = rstrip s.
Proof.
  unfold rstrip. by rewrite reverse_involutive, lstrip_idempotent.
Qed.

Lemma lstrip_snoc (x : str) (c : N) :
  isspace c = false → ∃ x', lstrip (x ++ [c]) = x' ++ [c].
Proof.
  intros Hc. induction x as [|d x [x' IH]]; simpl.
  - rewrite Hc. by exists [].
  - destruct (isspace d); [eauto |]. by exists (d :: x).
Qed.

Lemma strip_idempotent (s : str) : strip (strip s) = strip s.
Proof.
  unfold strip. destruct (lstrip s) as [|c t] eqn:Hs; [done |].
  pose proof (lstrip_head _ _ _ Hs) as Hc.
  assert (∃ y, rstrip (c :: t) = c :: y) as [y Hy].
  { unfold rstrip. rewrite reverse_cons.
    destruct (lstrip_snoc (reverse t) c Hc) as [x' ->].
    exists (reverse x'). by rewrite reverse_app. }
  rewrite Hy. simpl. rewrite Hc, <- Hy. apply rstrip_idempotent.
Qed.

Lemma replace_go_cons (o : N) (old' new s' : str) (c : N) :
  replace_go o old' new (c :: s') =
    if startswith (o :: old') (c :: s')
    then new ++ replace_go o old' new (drop (length old') s')
    else c :: replace_go o old' new s'.
Proof. simp replace_go. by destruct (startswith _ _). Qed.

(** Replacing a substring that does not occur changes nothing. *)
Lemma replace_go_absent (o : N) (old' new s : str) :
  contains (o :: old') s = false → replace_go o old' new s = s.
Proof.
  induction s as [|c s IH]; [by simp replace_go |].
  intros Hc. cbn [contains] in Hc.
  apply orb_false_iff in Hc as [Hs Hc].
  rewrite replace_go_cons, Hs. by rewrite IH.
Qed.

Lemma str_replace_absent (old new s : str) :
  old ≠ [] → contains old s = false → str_replace old new s = s.
Proof. destruct old; [done |]. intros _. apply replace_go_absent. Qed.

Lemma contains_fence_html (s : str) :
  contains FENCE s = false → contains FENCE_HTML s = false.
Proof.
  intros Hs. destruct (contains FENCE_HTML s) eqn:Hh; [|done].
  apply contains_true in Hh as (a & b & ->).
  rewrite <- Hs. symmetry. apply contains_true.
  exists a, (lit "html" ++ b). done.
Qed.

(** Deleting the fence: what is left of a run of backticks is shorter
    than a fence. *)
Lemma str_replace_fence_cons (c : N) (s : str) :
  str_replace FENCE [] (c :: s) =
    if startswith FENCE (c :: s) then str_replace FENCE [] (drop 2 s)
    else c :: str_replace FENCE [] s.
Proof. apply replace_go_cons. Qed.

Lemma str_replace_fence_nil : str_replace FENCE [] [] = [].
Proof. reflexivity. Qed.

Lemma fence_removal_head (s r : str) :
  str_replace FENCE [] s = 96 :: r → ∃ t, s = 96 :: t.
Proof.
  destruct s as [|c s]; [done |]. rewrite str_replace_fence_cons.
  destruct (startswith _ _) eqn:Hs.
  - apply startswith_true in Hs as [t Ht]. injection Ht as -> ->. eauto.
  - intros [= -> _]. eauto.
Qed.

Lemma fence_removal_head2 (s r : str) :
  str_replace FENCE [] s = 96 :: 96 :: r → ∃ t, s = 96 :: 96 :: t.
Proof.
  destruct s as [|c s]; [done |]. rewrite str_replace_fence_cons.
  destruct (startswith _ _) eqn:Hs.
  - apply startswith_true in Hs as [t Ht]. injection Ht as -> ->. eauto.
  - intros [= -> Hr]. apply fence_removal_head in Hr as [t ->]. eauto.
Qed.

Lemma fence_removal_bounded (n : nat) (s : str) :
  (length s ≤ n)%nat → contains FENCE (str_replace FENCE [] s) = false.
Proof.
  revert s. induction n as [|n IH]; intros s Hn.
  - destruct s; [done | simpl in Hn; lia].
  - destruct s as [|c s]; [done |].
    simpl in Hn. rewrite str_replace_fence_cons.
    destruct (startswith FENCE (c :: s)) eqn:Hs.
    + apply IH. rewrite length_drop. lia.
    + cbn [contains]. rewrite (IH s) by lia. rewrite orb_false_r.
      destruct (startswith FENCE (c :: str_replace FENCE [] s)) eqn:Hr;
        [|done].
      apply startswith_true in Hr as [t Ht].
      injection Ht as -> Ht.
      apply fence_removal_head2 in Ht as [t' ->]. discriminate.
Qed.

Lemma fence_removed (s : str) :
  contains FENCE (str_replace FENCE [] s) = false.
Proof. apply (fence_removal_bounded (length s)). done. Qed.

(** ** The clean-up of the generated markup *)

Example cleanup_fenced :
  cleanup (lit "  ```html<div>x</div>```  ") = lit "<div>x</div>".
Proof. vm_compute. reflexivity. Qed.












(** ** Endpoint URL correction, on every input *)

Lemma contains_app_l (sub a b : str) :
  contains sub a = true → contains sub (a ++ b) = true.
Proof.
  rewrite !contains_true. intros (x & y & ->). exists x, (y ++ b).
  by rewrite <- !app_assoc.
Qed.

Lemma truthy_correct_llm_url (u : str) :
  truthy (correct_llm_url u) = truthy u.
Proof.
  destruct (decide (u = [])) as [-> | Hu]; [done |].
  pose proof (correct_llm_url_nonempty u Hu).
  by destruct u, (correct_llm_url _).
Qed.

(** X1.  The correction only ever puts text around its input: in front
    nothing or [http://], behind nothing, [openai/] or [/openai/].  No
    code point of the input is dropped or changed. *)
Theorem correct_llm_url_only_extends (u : str) :
  ∃ a b,
    correct_llm_url u = a ++ u ++ b
    ∧ (a = [] ∨ a = HTTP_SCHEME)
    ∧ (b = [] ∨ b = OPENAI_SUFFIX ∨ b = SLASH ++ OPENAI_SUFFIX).
Proof.
  destruct (decide (u = [])) as [-> | Hu].
  { exists [], []. auto. }
  rewrite correct_llm_url_unfold by done. unfold with_scheme.
  destruct (startswith HTTP u); [exists [] | exists HTTP_SCHEME];
    (destruct (_ && _);
     [destruct (endswith _ _);
      [exists OPENAI_SUFFIX | exists (SLASH ++ OPENAI_SUFFIX)]
     | exists []]);
    rewrite <- ?app_assoc, ?app_nil_r; auto 6.
Qed.

(** X2.  A URL that starts with [http] and either does not name the Gemini
    host or already has [/openai/] in it comes back unchanged. *)
Theorem correct_llm_url_keeps_plain (u : str) :
  startswith HTTP u = true →
  contains GEMINI_HOST u = false ∨ contains OPENAI_SEGMENT u = true →
  correct_llm_url u = u.
Proof.
  intros Hs Hplain.
  assert (u ≠ []) as Hu by (intros ->; discriminate).
  rewrite correct_llm_url_unfold, with_scheme_id by done.
  destruct Hplain as [-> | ->]; [done |]. by rewrite andb_false_r.
Qed.

Lemma correct_llm_url_keeps_plain_witness :
  correct_llm_url (lit "https://api.openai.com/v1")
  = lit "https://api.openai.com/v1".
Proof.
  apply correct_llm_url_keeps_plain; [reflexivity | left; reflexivity].
Defined.

(** X3.  Whatever non-empty URL goes in, what comes out starts with
    [http], and if it names the Gemini host it has [/openai/] in it. *)
Theorem correct_llm_url_postcondition (u : str) :
  u ≠ [] →
  startswith HTTP (correct_llm_url u) = true
  ∧ (contains GEMINI_HOST (correct_llm_url u) = true →
     contains OPENAI_SEGMENT (correct_llm_url u) = true).
Proof.
  intros Hu. split; [by apply correct_llm_url_has_scheme |].
  rewrite correct_llm_url_unfold by done.
  destruct (contains GEMINI_HOST (with_scheme u)) eqn:Hg;
    destruct (contains OPENAI_SEGMENT (with_scheme u)) eqn:Ho;
    cbn [andb negb]; try done; try congruence.
  intros _. apply contains_true.
  destruct (endswith SLASH (with_scheme u)) eqn:He.
  - apply endswith_true in He as [a ->]. exists a, [].
    by rewrite <- app_assoc.
  - exists (with_scheme u), []. by rewrite <- app_assoc.
Qed.

Lemma correct_llm_url_postcondition_witness :
  startswith HTTP
    (correct_llm_url (lit "generativelanguage.googleapis.com")) = true
  ∧ contains OPENAI_SEGMENT
      (correct_llm_url (lit "generativelanguage.googleapis.com")) = true.
Proof.
  destruct (correct_llm_url_postcondition
              (lit "generativelanguage.googleapis.com")) as [Hs Ho];
    [discriminate |].
  split; [exact Hs | apply Ho; reflexivity].
Defined.

(** ** The clean-up, on every content *)

Lemma rstrip_keeps_head (c : N) (t : str) :
  isspace c = false → ∃ y, rstrip (c :: t) = c :: y.
Proof.
  intros Hc. unfold rstrip. rewrite reverse_cons.
  destruct (lstrip_snoc (reverse t) c Hc) as [x' ->].
  exists (reverse x'). by rewrite reverse_app.
Qed.

Lemma strip_first (s r : str) (x : N) :
  strip s = x :: r → isspace x = false.
Proof.
  unfold strip. destruct (lstrip s) as [|c t] eqn:Hs; [done |].
  pose proof (lstrip_head _ _ _ Hs) as Hc.
  destruct (rstrip_keeps_head c t Hc) as [y ->]. by intros [= <- _].
Qed.

Lemma strip_last (s r : str) (x : N) :
  strip s = r ++ [x] → isspace x = false.
Proof.
  unfold strip, rstrip. intros Hr.
  apply (f_equal reverse) in Hr.
  rewrite reverse_involutive, reverse_app in Hr.
  by apply lstrip_head in Hr.
Qed.

Lemma strip_sublist (s : str) : strip s `sublist_of` s.
Proof.
  destruct (strip_infix s) as (a & b & Hs). rewrite Hs at 2.
  by apply sublist_inserts_l, sublist_inserts_r.
Qed.

Lemma replace_go_sublist (n : nat) (o : N) (old' s : str) :
  (length s ≤ n)%nat → replace_go o old' [] s `sublist_of` s.
Proof.
  revert s. induction n as [|n IH]; intros s Hn.
  - destruct s; [by simp replace_go | simpl in Hn; lia].
  - destruct s as [|c s]; [by simp replace_go |].
    simpl in Hn. rewrite replace_go_cons.
    destruct (startswith _ _).
    + cbn [app]. apply sublist_cons. etrans; [apply IH | apply sublist_drop].
      rewrite length_drop. lia.
    + apply sublist_skip, IH. lia.
Qed.

Lemma str_replace_sublist (old s : str) :
  old ≠ [] → str_replace old [] s `sublist_of` s.
Proof.
  destruct old; [done |]. intros _. by apply (replace_go_sublist (length s)).
Qed.

Lemma cleanup_fence_free (content : str) :
  contains FENCE (cleanup content) = false.
Proof. unfold cleanup. apply contains_strip, fence_removed. Qed.

(** X4.  Cleaning up twice is cleaning up once. *)
Theorem cleanup_idempotent (content : str) :
  cleanup (cleanup content) = cleanup content.
Proof.
  pose proof (cleanup_fence_free content) as Hfree.
  assert (strip (cleanup content) = cleanup content) as Hs.
  { unfold cleanup at 1. by rewrite strip_idempotent. }
  unfold cleanup at 1. rewrite Hs.
  rewrite (str_replace_absent FENCE_HTML)
    by (done || by apply contains_fence_html).
  by rewrite (str_replace_absent FENCE).
Qed.

(** X5.  The cleaned-up markup neither starts nor ends with white
    space. *)
Theorem cleanup_trimmed (content : str) :
  (∀ x r, cleanup content = x :: r → isspace x = false)
  ∧ (∀ r x, cleanup content = r ++ [x] → isspace x = false).
Proof.
  unfold cleanup. split.
  - intros x r. apply strip_first.
  - intros r x. apply strip_last.
Qed.

Lemma cleanup_trimmed_witness :
  cleanup (lit " ```html <b>x</b> ``` ") = lit "<b>x</b>"
  ∧ isspace 60 = false ∧ isspace 62 = false.
Proof.
  split; [reflexivity |].
  destruct (cleanup_trimmed (lit " ```html <b>x</b> ``` ")) as [Hfirst Hlast].
  split.
  - apply (Hfirst 60 (lit "b>x</b>")). reflexivity.
  - apply (Hlast (lit "<b>x</b") 62). reflexivity.
Defined.

(** X6.  The clean-up only deletes: what it returns is what is left of the
    content after taking code points out, in their order; in particular
    it is never longer than the content. *)
Theorem cleanup_only_deletes (content : str) :
  cleanup content `sublist_of` content
  ∧ (length (cleanup content) ≤ length content)%nat.
Proof.
  assert (cleanup content `sublist_of` content) as Hsub.
  { unfold cleanup.
    etrans; [apply strip_sublist |].
    etrans; [by apply str_replace_sublist |].
    etrans; [by apply str_replace_sublist |].
    apply strip_sublist. }
  split; [done | by apply sublist_length].
Qed.

(** ** Encodable text *)

Example encode_error_one :
  encode_error (lit "<body>ab" ++ [55296] ++ lit "cd</body>")
  = Some (lit "'utf-8' codec can't encode character '\ud800' in position 8: surrogates not allowed").
Proof. reflexivity. Qed.

Example encode_error_run :
  encode_error (lit "<body>x" ++ [56448; 57343] ++ lit "y</body>")
  = Some (lit "'utf-8' codec can't encode characters in position 7-8: surrogates not allowed").
Proof. reflexivity. Qed.

Lemma encodable_app (a b : str) :
  encodable (a ++ b) = encodable a && encodable b.
Proof. apply forallb_app. Qed.

Lemma encodable_lit (s : string) : encodable (lit s) = true.
Proof.
  unfold lit. induction (list_ascii_of_string s) as [|a l IH]; [done |].
  cbn [fmap list_fmap encodable forallb]. fold (encodable (N_of_ascii <$> l)).
  rewrite IH, andb_true_r. apply negb_true_iff.
  unfold is_surrogate. apply andb_false_iff. left. apply N.leb_gt.
  pose proof (N_ascii_bounded a). lia.
Qed.

Lemma encodable_sublist (s t : str) :
  s `sublist_of` t → encodable t = true → encodable s = true.
Proof.
  induction 1 as [| x s t _ IH | x s t _ IH]; [done | |];
    cbn [encodable forallb]; rewrite !andb_true_iff; intros [Hx Ht];
    auto.
Qed.

Lemma first_surrogate_encodable (position : nat) (s : str) :
  encodable s = true → first_surrogate position s = None.
Proof.
  revert position. induction s as [|c s IH]; intros position; [done |].
  cbn [encodable forallb first_surrogate]. rewrite andb_true_iff.
  intros [Hc Hs]. apply negb_true_iff in Hc. rewrite Hc. by apply IH.
Qed.

Lemma first_surrogate_unencodable (position : nat) (s : str) :
  encodable s = false →
  ∃ start c run, first_surrogate position s = Some (start, c, S run).
Proof.
  revert position. induction s as [|c s IH]; intros position; [done |].
  cbn [encodable forallb first_surrogate].
  destruct (is_surrogate c); [eauto |]. cbn [negb andb]. apply IH.
Qed.

Lemma encode_error_encodable (s : str) :
  encodable s = true → encode_error s = None.
Proof.
  intros Hs. unfold encode_error. by rewrite first_surrogate_encodable.
Qed.

Lemma encode_error_unencodable (s : str) :
  encodable s = false → ∃ message, encode_error s = Some message.
Proof.
  intros Hs. unfold encode_error.
  destruct (first_surrogate_unencodable 0 s Hs) as (start & c & run & ->).
  destruct run; eauto.
Qed.

Lemma encodable_zfill (width : nat) (s : str) :
  encodable s = true → encodable (zfill width s) = true.
Proof.
  intros Hs. unfold zfill. rewrite encodable_app, Hs, andb_true_r.
  induction (width - length s)%nat as [|n IH]; [done |]. exact IH.
Qed.

Lemma encodable_strftime_HMS (t : datetime) :
  encodable (strftime_HMS t) = true.
Proof.
  unfold strftime_HMS, str_of_N.
  by rewrite !encodable_app, !encodable_zfill by apply encodable_lit.
Qed.

Lemma encodable_artifact_name (E : env) (w : world) :
  encodable (artifact_name E w) = true.
Proof.
  unfold artifact_name, strftime_Ymd_HMS, str_of_N.
  by rewrite !encodable_app, !encodable_zfill, !encodable_lit
    by apply encodable_lit.
Qed.

Lemma forallb_take {A} (f : A → bool) (n : nat) (l : list A) :
  forallb f l = true → forallb f (take n l) = true.
Proof.
  revert n. induction l as [|x l IH]; intros [|n]; try done.
  cbn [forallb take]. rewrite !andb_true_iff. intros [Hx Hl]. auto.
Qed.

Lemma encodable_log (E : env) (req : UIRequest) (w : world) (time : str)
    (l : list pyval) :
  encodable (user_action req) = true →
  encodable (model req) = true →
  encodable time = true →
  encodable_value (PList l) = true →
  encodable_value
    (PList (take 100
       (history_entry (user_action req) (artifact_name E w) time (model req)
        :: l))) = true.
Proof.
  intros Ha Hm Ht Hl. cbn [encodable_value] in *. apply forallb_take.
  cbn [forallb history_entry encodable_value fst snd].
  by rewrite !encodable_lit, Ha, Hm, Ht, encodable_artifact_name, Hl.
Qed.

Lemma cleanup_sublist (content : str) : cleanup content `sublist_of` content.
Proof.
  unfold cleanup.
  etrans; [apply strip_sublist |].
  etrans; [by apply str_replace_sublist |].
  etrans; [by apply str_replace_sublist |].
  apply strip_sublist.
Qed.

Lemma encodable_cleanup (content : str) :
  encodable content = true → encodable (cleanup content) = true.
Proof. apply encodable_sublist, cleanup_sublist. Qed.

Lemma main_log_content_encodable (markup : str) :
  encodable (Main.log_content markup) = encodable markup.
Proof.
  unfold Main.log_content. rewrite !encodable_app, !encodable_lit.
  change (encodable NL) with true. change (encodable DQ) with true.
  cbn [andb]. by rewrite andb_true_r.
Qed.

Lemma gemini_log_content_encodable (markup : str) :
  encodable (GeminiApp.log_content markup) = encodable markup.
Proof.
  unfold GeminiApp.log_content. rewrite !encodable_app, !encodable_lit.
  cbn [andb]. by rewrite andb_true_r.
Qed.

(** ** The history store *)

Lemma load_history_run (w : world) :
  load_history w = (inr (stored_log w), w).
Proof.
  unfold load_history, stored_log, read_history_file, mbind, M_bind.
  destruct (history_file w) as [t|]; [|done]. by destruct (json_load t).
Qed.

Lemma stored_log_load (w : world) (v : pyval) :
  load_history w = (inr v, w) ↔ stored_log w = v.
Proof.
  rewrite load_history_run. split; [by intros [= ->] | by intros ->].
Qed.

Lemma save_history_run (E : env) (entry : pyval) (l : list pyval)
    (w : world) :
  load_history w = (inr (PList l), w) →
  encodable_value (PList (take 100 (entry :: l))) = true →
  save_history E entry w =
    (inr (), {| history_file := Some (json_dump (PList (take 100 (entry :: l))));
                artifacts := artifacts w;
                clock_reads := clock_reads w;
                remote_calls := remote_calls w |}).
Proof.
  intros Hl Hok. unfold save_history, mbind, M_bind. rewrite Hl.
  unfold write_history_file. by rewrite Hok.
Qed.

Lemma load_after_dump (v : pyval) (a : gmap str str) (n : nat)
    (calls : list remote_call) :
  let w := {| history_file := Some (json_dump v); artifacts := a;
              clock_reads := n; remote_calls := calls |} in
  load_history w = (inr v, w).
Proof. intros w. by rewrite load_history_run. Qed.

Lemma take_app_take {A} (n : nat) (a b : list A) :
  take n (a ++ take n b) = take n (a ++ b).
Proof. rewrite !take_app, take_take. f_equal. f_equal. lia. Qed.

Lemma append_all_run (E : env) (entries l : list pyval) (w : world) :
  (length l ≤ 100)%nat →
  forallb encodable_value entries = true →
  encodable_value (PList l) = true →
  load_history w = (inr (PList l), w) →
  ∃ w', append_all E entries w = (inr (), w')
        ∧ load_history w' = (inr (PList (take 100 (reverse entries ++ l))), w').
Proof.
  revert l w.
  induction entries as [|e entries IH]; intros l w Hlen Hes Hok Hl.
  - exists w. split; [done |]. by rewrite Hl, take_ge.
  - cbn [forallb] in Hes. apply andb_true_iff in Hes as [He Hes].
    assert (encodable_value (PList (take 100 (e :: l))) = true) as Hnew.
    { cbn [encodable_value] in *. apply forallb_take.
      cbn [forallb]. by rewrite He, Hok. }
    cbn [append_all]. unfold mbind, M_bind.
    rewrite (save_history_run E e l w Hl Hnew).
    edestruct (IH (take 100 (e :: l))) as (w' & Hrun & Hload);
      [| exact Hes | exact Hnew | apply load_after_dump |].
    { rewrite length_take. lia. }
    exists w'. split; [exact Hrun |].
    rewrite Hload, take_app_take, reverse_cons, <- app_assoc. done.
Qed.

(** C6.  [load_history] never raises and leaves the world as it was; when
    the history file is absent, or is there but [json.load] rejects it, the
    log it returns is empty. *)
Theorem load_history_recovers (w : world) :
  (∃ v, load_history w = (inr v, w))
  ∧ ((history_file w = None
      ∨ ∃ t e, history_file w = Some t ∧ json_load t = inl e) →
     load_history w = (inr (PList []), w)).
Proof.
  rewrite load_history_run. split; [eauto |]. unfold stored_log.
  intros [-> | (t & e & -> & ->)]; done.
Qed.

Lemma load_history_recovers_witness :
  let w := {| history_file := Some (Garbled (lit "[{ not json"));
              artifacts := ∅; clock_reads := 0; remote_calls := [] |} in
  (∃ t e, history_file w = Some t ∧ json_load t = inl e)
  ∧ load_history w = (inr (PList []), w).
Proof.
  intros w.
  assert (∃ t e, history_file w = Some t ∧ json_load t = inl e) as Hbad.
  { exists (Garbled (lit "[{ not json")), (Exception (lit "Expecting value")).
    split; reflexivity. }
  split; [exact Hbad |].
  apply (load_history_recovers w). right. exact Hbad.
Defined.

(** C3.  From an empty log, 101 appends of entries that can be written
    (no lone surrogate in their strings) leave the last 100 entries, the
    newest first: the entry appended first is gone.  And whatever the log
    and the entry were, an append that went through leaves at most 100
    entries, and one that raised leaves the world as it was or a file
    that loads as the empty log. *)
Theorem history_bounded :
  (∀ (E : env) (w : world) (entries : list pyval),
     load_history w = (inr (PList []), w) →
     length entries = 101%nat →
     forallb encodable_value entries = true →
     ∃ w', append_all E entries w = (inr (), w')
           ∧ load_history w' = (inr (PList (reverse (drop 1 entries))), w')
           ∧ length (reverse (drop 1 entries)) = 100%nat)
  ∧ (∀ (E : env) (w w' : world) (entry : pyval) (r : exn + unit),
       save_history E entry w = (r, w') →
       match r with
       | inr _ =>
           ∃ l, load_history w' = (inr (PList l), w') ∧ (length l ≤ 100)%nat
       | inl _ => w' = w ∨ load_history w' = (inr (PList []), w')
       end).
Proof.
  split.
  - intros E w entries Hempty Hlen Hes.
    destruct (append_all_run E entries [] w) as (w' & Hrun & Hload);
      [simpl; lia | done | done | done |].
    exists w'. split; [done |].
    destruct entries as [|e entries]; [done |].
    simpl in Hlen. rewrite Hload, app_nil_r, reverse_cons. cbn [drop].
    rewrite !drop_0.
    rewrite take_app_length' by (rewrite length_reverse; lia).
    rewrite length_reverse. split; [done | lia].
  - intros E w w' entry r. unfold save_history, mbind, M_bind.
    rewrite load_history_run.
    destruct (stored_log w) as [| | | | |l|] eqn:Hv;
      try (intros [= <- <-]; by left).
    unfold write_history_file.
    destruct (encodable_value _); intros [= <- <-].
    + exists (take 100 (entry :: l)).
      split; [apply load_after_dump |]. rewrite length_take. lia.
    + right. by rewrite load_history_run.
Qed.

Lemma history_bounded_witness :
  let entries :=
    (λ n, history_entry (lit "go") (str_of_N (N.of_nat n)) [] [])
      <$> seq 0 101 in
  ∃ w', append_all sample_env entries fresh_world = (inr (), w')
        ∧ load_history w' = (inr (PList (reverse (drop 1 entries))), w')
        ∧ length (reverse (drop 1 entries)) = 100%nat.
Proof.
  intros entries.
  apply (proj1 history_bounded sample_env fresh_world entries); reflexivity.
Defined.

(** ** [POST /generate] *)

Example artifact_name_sample :
  artifact_name sample_env fresh_world = lit "ui_20240517_093001.html".
Proof. reflexivity. Qed.

Example strftime_HMS_sample :
  strftime_HMS (clock sample_env 7) = lit "09:30:07".
Proof. reflexivity. Qed.

Lemma stored_log_same_file (w : world) (a : gmap str str) (n : nat)
    (calls : list remote_call) :
  stored_log {| history_file := history_file w; artifacts := a;
                clock_reads := n; remote_calls := calls |}
  = stored_log w.
Proof. reflexivity. Qed.

Lemma main_generate_ui_run (E : env) (req : UIRequest) (w : world) :
  truthy (api_key req) || truthy (llm_url req) = true →
  Main.generate_ui E req w
  = generation_outcome E req (Main.client_of req) (Main.chat_request_of req)
      Main.log_content w.
Proof.
  intros Hcfg. unfold Main.generate_ui, generation_outcome.
  replace (negb (truthy (api_key req)) && negb (truthy (llm_url req)))
    with false by (by destruct (truthy (api_key req)), (truthy (llm_url req))).
  handler_steps.
  destruct (client_error _ _); [done |].
  destruct (chat_answer _ _ _ _) as [e | [| [content|] rest]]; try done.
  cbn [history_file artifacts clock_reads remote_calls].
  destruct (encode_error _); [done |].
  unfold save_history, mbind, M_bind. rewrite load_history_run.
  rewrite !stored_log_same_file.
  destruct (stored_log w); try done.
  unfold write_history_file. by destruct (encodable_value _).
Qed.

Lemma gemini_generate_ui_run (E : env) (req : UIRequest) (w : world) :
  truthy (api_key req) = true →
  GeminiApp.generate_ui E req w
  = generation_outcome E req (GeminiApp.client_of req)
      (GeminiApp.chat_request_of req) GeminiApp.log_content w.
Proof.
  intros Hcfg. unfold GeminiApp.generate_ui, generation_outcome.
  rewrite Hcfg. cbn [negb]. handler_steps.
  destruct (client_error _ _); [done |].
  destruct (chat_answer _ _ _ _) as [e | [| [content|] rest]]; try done.
  cbn [history_file artifacts clock_reads remote_calls].
  destruct (encode_error _); [done |].
  unfold save_history, mbind, M_bind. rewrite load_history_run.
  rewrite !stored_log_same_file.
  destruct (stored_log w); try done.
  unfold write_history_file. by destruct (encodable_value _).
Qed.

Lemma main_generate_ui_rejected (E : env) (req : UIRequest) (w : world) :
  truthy (api_key req) || truthy (llm_url req) = false →
  Main.generate_ui E req w
  = (inl (HTTPException 400 (lit "API Key or Local LLM URL is required.")), w).
Proof.
  intros Hcfg. apply orb_false_iff in Hcfg as [Hk Hu].
  unfold Main.generate_ui. by rewrite Hk, Hu.
Qed.

Lemma gemini_generate_ui_rejected (E : env) (req : UIRequest) (w : world) :
  truthy (api_key req) = false →
  GeminiApp.generate_ui E req w
  = (inl (HTTPException 400 (lit "Gemini API Key is required.")), w).
Proof. intros Hcfg. unfold GeminiApp.generate_ui. by rewrite Hcfg. Qed.

(** The outcome by cases, for any service. *)
Section Outcome.
Context (E : env) (req : UIRequest) (c : client) (r : chat_request)
  (wrap : str → str) (w : world).

Lemma outcome_success (content : str) (rest : list (option str))
    (l : list pyval) :
  (∀ markup, encodable (wrap markup) = encodable markup) →
  client_error E c = None →
  chat_answer E (length (remote_calls w)) c r = inr (Some content :: rest) →
  stored_log w = PList l →
  encodable content = true →
  encodable (user_action req) = true →
  encodable (model req) = true →
  encodable_value (PList l) = true →
  generation_outcome E req c r wrap w
  = (inr {| html := cleanup content |},
     generated E req (ChatCompletionsCreate c r) (wrap (cleanup content))
       l w).
Proof.
  intros Hwrap Hclient Hanswer Hl Hcontent Haction Hmodel Hlog.
  unfold generation_outcome. rewrite Hclient, Hanswer, Hl.
  rewrite encode_error_encodable
    by (rewrite Hwrap; by apply encodable_cleanup).
  by rewrite encodable_log by (done || apply encodable_strftime_HMS).
Qed.

Lemma outcome_other_files (name : str) :
  name ≠ artifact_name E w →
  artifacts (generation_outcome E req c r wrap w).2 !! name
  = artifacts w !! name.
Proof.
  intros Hname. unfold generation_outcome.
  destruct (client_error E c); [done |].
  destruct (chat_answer _ _ _ _) as [e | [| [content|] rest]]; try done.
  destruct (encode_error _);
    [cbn [snd after_write artifacts]; by rewrite lookup_insert_ne |].
  destruct (stored_log w); try destruct (encodable_value _);
    cbn [snd after_write artifacts]; by rewrite lookup_insert_ne.
Qed.

Lemma outcome_log_ok :
  log_ok w → log_ok (generation_outcome E req c r wrap w).2.
Proof.
  intros (l & Hl & Hlen). unfold generation_outcome.
  destruct (client_error E c); [by exists l |].
  destruct (chat_answer _ _ _ _) as [e | [| [content|] rest]];
    try (by exists l).
  destruct (encode_error _); [by exists l |].
  rewrite Hl. destruct (encodable_value _).
  - eexists. split; [reflexivity |]. rewrite length_take. lia.
  - exists []. split; [reflexivity | simpl; lia].
Qed.

Lemma outcome_sends :
  client_error E c = None →
  remote_calls (generation_outcome E req c r wrap w).2
  = ChatCompletionsCreate c r :: remote_calls w.
Proof.
  intros Hclient. unfold generation_outcome. rewrite Hclient.
  destruct (chat_answer _ _ _ _) as [e | [| [content|] rest]]; try done.
  destruct (encode_error _); [done |].
  destruct (stored_log w); try done. by destruct (encodable_value _).
Qed.


End Outcome.

Lemma load_generated (E : env) (req : UIRequest) (call : remote_call)
    (document : str) (l : list pyval) (w : world) :
  let w' := generated E req call document l w in
  load_history w' =
    (inr (PList (take 100
       (history_entry (user_action req) (artifact_name E w)
          (strftime_HMS (clock E (clock_reads w))) (model req) :: l))), w').
Proof. intros w'. by rewrite load_history_run. Qed.

Lemma main_generate_ui_success (E : env) (req : UIRequest) (w : world)
    (content : str) (rest : list (option str)) (l : list pyval) :
  truthy (api_key req) || truthy (llm_url req) = true →
  client_error E (Main.client_of req) = None →
  chat_answer E (length (remote_calls w))
    (Main.client_of req) (Main.chat_request_of req)
  = inr (Some content :: rest) →
  load_history w = (inr (PList l), w) →
  encodable content = true →
  encodable (user_action req) = true →
  encodable (model req) = true →
  encodable_value (PList l) = true →
  Main.generate_ui E req w =
    (inr {| html := cleanup content |},
     generated E req
       (ChatCompletionsCreate (Main.client_of req) (Main.chat_request_of req))
       (Main.log_content (cleanup content)) l w).
Proof.
  intros Hcfg Hclient Hanswer Hl. apply stored_log_load in Hl. intros.
  rewrite main_generate_ui_run by done.
  by apply (outcome_success _ _ _ _ _ _ content rest l);
    [apply main_log_content_encodable | ..].
Qed.

Lemma gemini_generate_ui_success (E : env) (req : UIRequest) (w : world)
    (content : str) (rest : list (option str)) (l : list pyval) :
  truthy (api_key req) = true →
  client_error E (GeminiApp.client_of req) = None →
  chat_answer E (length (remote_calls w))
    (GeminiApp.client_of req) (GeminiApp.chat_request_of req)
  = inr (Some content :: rest) →
  load_history w = (inr (PList l), w) →
  encodable content = true →
  encodable (user_action req) = true →
  encodable (model req) = true →
  encodable_value (PList l) = true →
  GeminiApp.generate_ui E req w =
    (inr {| html := cleanup content |},
     generated E req
       (ChatCompletionsCreate (GeminiApp.client_of req)
          (GeminiApp.chat_request_of req))
       (GeminiApp.log_content (cleanup content)) l w).
Proof.
  intros Hcfg Hclient Hanswer Hl. apply stored_log_load in Hl. intros.
  rewrite gemini_generate_ui_run by done.
  by apply (outcome_success _ _ _ _ _ _ content rest l);
    [apply gemini_log_content_encodable | ..].
Qed.

(** The stored history stays a list under both services, whatever the
    remote service answers. *)
Lemma main_generate_ui_keeps_list (E : env) (req : UIRequest) (w : world) :
  (∃ l, stored_log w = PList l) →
  ∃ l', stored_log (Main.generate_ui E req w).2 = PList l'.
Proof.
  intros [l Hl].
  destruct (truthy (api_key req) || truthy (llm_url req)) eqn:Hcfg;
    [| rewrite main_generate_ui_rejected by done; by exists l].
  rewrite main_generate_ui_run by done. unfold generation_outcome.
  destruct (client_error _ _); [by exists l |].
  destruct (chat_answer _ _ _ _) as [e | [| [content|] rest]];
    try by exists l.
  destruct (encode_error _); [by exists l |].
  rewrite Hl. destruct (encodable_value _); by eexists.
Qed.

Lemma gemini_generate_ui_keeps_list (E : env) (req : UIRequest) (w : world) :
  (∃ l, stored_log w = PList l) →
  ∃ l', stored_log (GeminiApp.generate_ui E req w).2 = PList l'.
Proof.
  intros [l Hl].
  destruct (truthy (api_key req)) eqn:Hcfg;
    [| rewrite gemini_generate_ui_rejected by done; by exists l].
  rewrite gemini_generate_ui_run by done. unfold generation_outcome.
  destruct (client_error _ _); [by exists l |].
  destruct (chat_answer _ _ _ _) as [e | [| [content|] rest]];
    try by exists l.
  destruct (encode_error _); [by exists l |].
  rewrite Hl. destruct (encodable_value _); by eexists.
Qed.

Lemma fresh_world_list : stored_log fresh_world = PList [].
Proof. reflexivity. Qed.

(** C5.  With neither an API key nor an endpoint URL, both services answer
    400 at once: the world is the one they started in, so nothing was sent
    to the remote service, no artifact was written and the history is as
    it was. *)
Theorem generate_ui_rejects_unconfigured (E : env) (req : UIRequest)
    (w : world) :
  api_key req = [] →
  llm_url req = [] →
  Main.generate_ui E req w
  = (inl (HTTPException 400 (lit "API Key or Local LLM URL is required.")), w)
  ∧ GeminiApp.generate_ui E req w
    = (inl (HTTPException 400 (lit "Gemini API Key is required.")), w).
Proof.
  intros Hkey Hurl. unfold Main.generate_ui, GeminiApp.generate_ui.
  by rewrite Hkey, Hurl.
Qed.

Lemma generate_ui_rejects_unconfigured_witness :
  Main.generate_ui sample_env unconfigured_request fresh_world
  = (inl (HTTPException 400 (lit "API Key or Local LLM URL is required.")),
     fresh_world)
  ∧ GeminiApp.generate_ui sample_env unconfigured_request fresh_world
    = (inl (HTTPException 400 (lit "Gemini API Key is required.")),
       fresh_world).
Proof.
  apply (generate_ui_rejects_unconfigured sample_env unconfigured_request
           fresh_world); reflexivity.
Defined.

(** C4.  Once the credentials are accepted and the client is built, each
    service sends one chat request whose user message is its
    [user_prompt]; and that prompt is a fixed frame around the first 5000
    code points of [current_html]: the whole markup when it has at most
    5000, a strict prefix otherwise. *)
Theorem prompt_embeds_truncated_markup (E : env) (req : UIRequest)
    (w : world) :
  (truthy (api_key req) || truthy (llm_url req) = true →
   client_error E (Main.client_of req) = None →
   ∃ cr sys,
     remote_calls (Main.generate_ui E req w).2
     = ChatCompletionsCreate (Main.client_of req) cr :: remote_calls w
     ∧ chat_messages cr
       = [(lit "system", sys); (lit "user", Main.user_prompt req)])
  ∧ (truthy (api_key req) = true →
     client_error E (GeminiApp.client_of req) = None →
     ∃ cr sys,
       remote_calls (GeminiApp.generate_ui E req w).2
       = ChatCompletionsCreate (GeminiApp.client_of req) cr :: remote_calls w
       ∧ chat_messages cr
         = [(lit "system", sys); (lit "user", GeminiApp.user_prompt req)])
  ∧ (∃ before after, ∀ markup,
       Main.user_prompt (with_current_html req markup)
       = before ++ take 5000 markup ++ after)
  ∧ (∃ before after, ∀ markup,
       GeminiApp.user_prompt (with_current_html req markup)
       = before ++ take 5000 markup ++ after)
  ∧ (∀ markup : str,
       ((length markup ≤ 5000)%nat → take 5000 markup = markup)
       ∧ ((5000 < length markup)%nat →
          length (take 5000 markup) = 5000%nat
          ∧ take 5000 markup `prefix_of` markup)).
Proof.
  split; [| split; [| split; [| split]]].
  - intros Hcfg Hclient. eexists _, _.
    split; [by rewrite main_generate_ui_run, outcome_sends |].
    reflexivity.
  - intros Hcfg Hclient. eexists _, _.
    split; [by rewrite gemini_generate_ui_run, outcome_sends |].
    reflexivity.
  - exists (Main.user_prompt_head req), Main.USER_PROMPT_TAIL. done.
  - exists (GeminiApp.user_prompt_head req), GeminiApp.USER_PROMPT_TAIL. done.
  - intros markup. split.
    + intros Hle. by apply take_ge.
    + intros Hlt. split; [rewrite length_take; lia | apply prefix_take].
Qed.

Lemma prompt_embeds_truncated_markup_witness :
  truthy (api_key sample_request) = true
  ∧ ∃ cr sys,
      remote_calls (GeminiApp.generate_ui sample_env sample_request fresh_world).2
      = ChatCompletionsCreate (GeminiApp.client_of sample_request) cr
        :: remote_calls fresh_world
      ∧ chat_messages cr
        = [(lit "system", sys);
           (lit "user", GeminiApp.user_prompt sample_request)].
Proof.
  split; [reflexivity |].
  destruct (prompt_embeds_truncated_markup sample_env sample_request
              fresh_world) as (_ & Hsent & _).
  apply Hsent; reflexivity.
Defined.

(** C9.  When the client is built, the remote call answers with a content
    string, and what is to be written can be encoded (no lone surrogate
    in the content, the request's action and model, or the stored
    history, which is a list), each service returns the cleaned-up
    content as [html], writes one file holding it, and puts one entry in
    front of the history; the [filename] of that entry is the name of
    the file written. *)
Theorem generation_recorded (E : env) (req : UIRequest) (w : world)
    (content : str) (rest : list (option str)) (l : list pyval) :
  load_history w = (inr (PList l), w) →
  encodable_value (PList l) = true →
  encodable content = true →
  encodable (user_action req) = true →
  encodable (model req) = true →
  (truthy (api_key req) || truthy (llm_url req) = true →
   client_error E (Main.client_of req) = None →
   chat_answer E (length (remote_calls w))
     (Main.client_of req) (Main.chat_request_of req)
   = inr (Some content :: rest) →
   ∃ w',
     Main.generate_ui E req w = (inr {| html := cleanup content |}, w')
     ∧ artifacts w'
       = <[artifact_name E w := Main.log_content (cleanup content)]>
           (artifacts w)
     ∧ load_history w'
       = (inr (PList (take 100
            (PDict [(lit "intent", PStr (user_action req));
                    (lit "filename", PStr (artifact_name E w));
                    (lit "time",
                     PStr (strftime_HMS (clock E (clock_reads w))));
                    (lit "model", PStr (model req))]
             :: l))), w'))
  ∧ (truthy (api_key req) = true →
     client_error E (GeminiApp.client_of req) = None →
     chat_answer E (length (remote_calls w))
       (GeminiApp.client_of req) (GeminiApp.chat_request_of req)
     = inr (Some content :: rest) →
     ∃ w',
       GeminiApp.generate_ui E req w = (inr {| html := cleanup content |}, w')
       ∧ artifacts w'
         = <[artifact_name E w := GeminiApp.log_content (cleanup content)]>
             (artifacts w)
       ∧ load_history w'
         = (inr (PList (take 100
              (PDict [(lit "intent", PStr (user_action req));
                      (lit "filename", PStr (artifact_name E w));
                      (lit "time",
                       PStr (strftime_HMS (clock E (clock_reads w))));
                      (lit "model", PStr (model req))]
               :: l))), w')).
Proof.
  intros Hl Hlog Hcontent Haction Hmodel.
  split; intros Hcfg Hclient Hanswer.
  - eexists.
    split; [by apply (main_generate_ui_success E req w content rest l) |].
    split; [done | apply load_generated].
  - eexists.
    split; [by apply (gemini_generate_ui_success E req w content rest l) |].
    split; [done | apply load_generated].
Qed.

Lemma generation_recorded_witness :
  ∃ w',
    Main.generate_ui sample_env sample_request fresh_world
    = (inr {| html := lit "<p>hi</p>" |}, w')
    ∧ artifacts w'
      = {[ lit "ui_20240517_093001.html"
           := Main.log_content (lit "<p>hi</p>") ]}
    ∧ load_history w'
      = (inr (PList [PDict [(lit "intent", PStr (lit "open settings"));
                            (lit "filename",
                             PStr (lit "ui_20240517_093001.html"));
                            (lit "time", PStr (lit "09:30:00"));
                            (lit "model", PStr [])]]), w').
Proof.
  destruct (generation_recorded sample_env sample_request fresh_world
              (lit "```html<p>hi</p>```") [] []) as [Hmain _];
    try reflexivity.
  destruct Hmain as (w' & Hrun & Hfile & Hlog); try reflexivity.
  exists w'. split; [exact Hrun |]. split; [exact Hfile |]. exact Hlog.
Defined.

(** C10.  In [main.py], a request with an empty [model] (under the
    conditions of a successful generation) is sent to the remote service
    under the model name gpt-4o, while the history entry of that
    generation records the empty string as its [model]. *)
Theorem recorded_model_may_differ (E : env) (req : UIRequest) (w : world)
    (content : str) (rest : list (option str)) (l : list pyval) :
  model req = [] →
  truthy (api_key req) || truthy (llm_url req) = true →
  client_error E (Main.client_of req) = None →
  chat_answer E (length (remote_calls w))
    (Main.client_of req) (Main.chat_request_of req)
  = inr (Some content :: rest) →
  load_history w = (inr (PList l), w) →
  encodable_value (PList l) = true →
  encodable content = true →
  encodable (user_action req) = true →
  ∃ w' cr,
    Main.generate_ui E req w = (inr {| html := cleanup content |}, w')
    ∧ remote_calls w'
      = ChatCompletionsCreate (Main.client_of req) cr :: remote_calls w
    ∧ chat_model cr = lit "gpt-4o"
    ∧ load_history w'
      = (inr (PList (take 100
           (PDict [(lit "intent", PStr (user_action req));
                   (lit "filename", PStr (artifact_name E w));
                   (lit "time",
                    PStr (strftime_HMS (clock E (clock_reads w))));
                   (lit "model", PStr [])]
            :: l))), w').
Proof.
  intros Hmodel Hcfg Hclient Hanswer Hl Hlog Hcontent Haction.
  eexists _, _.
  split; [apply (main_generate_ui_success E req w content rest l);
          by rewrite ?Hmodel |].
  split; [done |]. split.
  - unfold Main.chat_request_of. cbn [chat_model]. by rewrite Hmodel.
  - rewrite load_generated. by rewrite Hmodel.
Qed.

Lemma recorded_model_may_differ_witness :
  ∃ w' cr,
    Main.generate_ui sample_env sample_request fresh_world
    = (inr {| html := cleanup (lit "```html<p>hi</p>```") |}, w')
    ∧ remote_calls w'
      = ChatCompletionsCreate (Main.client_of sample_request) cr
        :: remote_calls fresh_world
    ∧ chat_model cr = lit "gpt-4o"
    ∧ load_history w'
      = (inr (PList (take 100
           (PDict [(lit "intent", PStr (user_action sample_request));
                   (lit "filename",
                    PStr (artifact_name sample_env fresh_world));
                   (lit "time",
                    PStr (strftime_HMS
                            (clock sample_env (clock_reads fresh_world))));
                   (lit "model", PStr [])]
            :: []))), w').
Proof.
  apply (recorded_model_may_differ sample_env sample_request fresh_world
           (lit "```html<p>hi</p>```") [] []); reflexivity.
Defined.

(** * Further properties of the handlers *)

(** ** The history store, one append at a time *)

(** X7.  An append of an entry that can be encoded, to a log that loads
    as a list that can be, goes through, and the next load returns the
    new entry first, followed by the first 99 of the entries that were
    there; nothing else in the world changes. *)
Theorem save_history_puts_entry_first (E : env) (entry : pyval)
    (l : list pyval) (w : world) :
  load_history w = (inr (PList l), w) →
  encodable_value entry = true →
  encodable_value (PList l) = true →
  ∃ w', save_history E entry w = (inr (), w')
        ∧ load_history w' = (inr (PList (entry :: take 99 l)), w')
        ∧ artifacts w' = artifacts w
        ∧ clock_reads w' = clock_reads w
        ∧ remote_calls w' = remote_calls w.
Proof.
  intros Hl He Hlog. eexists. split.
  - apply save_history_run; [done |].
    cbn [encodable_value] in *. apply forallb_take.
    cbn [forallb]. by rewrite He, Hlog.
  - split; [| done]. apply load_after_dump.
Qed.

Lemma save_history_puts_entry_first_witness :
  ∃ w', save_history sample_env (PStr (lit "first")) fresh_world = (inr (), w')
        ∧ load_history w' = (inr (PList [PStr (lit "first")]), w')
        ∧ artifacts w' = artifacts fresh_world
        ∧ clock_reads w' = clock_reads fresh_world
        ∧ remote_calls w' = remote_calls fresh_world.
Proof.
  apply (save_history_puts_entry_first sample_env (PStr (lit "first")) []
           fresh_world); reflexivity.
Defined.

(** X8.  When the history file holds JSON that is not an array, an append
    raises (the value has no [insert]) and the world stays as it was: the
    file is not rewritten. *)
Theorem save_history_rejects_non_list (E : env) (entry v : pyval)
    (w : world) :
  load_history w = (inr v, w) →
  is_list v = false →
  save_history E entry w
  = (inl (Exception (lit "'" ++ type_name v
                     ++ lit "' object has no attribute 'insert'")), w).
Proof.
  intros Hv Hlist. unfold save_history, mbind, M_bind. rewrite Hv.
  by destruct v.
Qed.

Lemma save_history_rejects_non_list_witness :
  save_history sample_env (PStr (lit "first")) object_world
  = (inl (Exception (lit "'dict' object has no attribute 'insert'")),
     object_world).
Proof.
  apply (save_history_rejects_non_list _ _ (PDict []) object_world);
    reflexivity.
Defined.

(** X23.  An append that cannot be encoded (a lone surrogate in the
    entry or in the entries kept) raises after the file has been opened
    for writing: what is left does not parse, so the next load returns
    the empty log and the history that was there is lost. *)
Theorem save_history_unencodable_loses_log (E : env) (entry : pyval)
    (l : list pyval) (w : world) :
  load_history w = (inr (PList l), w) →
  encodable_value (PList (take 100 (entry :: l))) = false →
  ∃ message w',
    save_history E entry w = (inl (Exception message), w')
    ∧ load_history w' = (inr (PList []), w')
    ∧ artifacts w' = artifacts w.
Proof.
  intros Hl Hbad. unfold save_history, mbind, M_bind. rewrite Hl.
  unfold write_history_file. rewrite Hbad. eexists _, _.
  split; [reflexivity |]. split; [| done]. by rewrite load_history_run.
Qed.

Lemma save_history_unencodable_loses_log_witness :
  let w := {| history_file := Some (Encoded (PList [PStr (lit "kept")]));
              artifacts := ∅; clock_reads := 0; remote_calls := [] |} in
  ∃ message w',
    save_history sample_env (PStr [55296]) w = (inl (Exception message), w')
    ∧ load_history w' = (inr (PList []), w')
    ∧ artifacts w' = artifacts w.
Proof.
  intros w.
  apply (save_history_unencodable_loses_log sample_env (PStr [55296])
           [PStr (lit "kept")] w); reflexivity.
Defined.

(** ** [GET /models] *)

Lemma get_models_run (E : env) (url key : str) (w : world) :
  truthy url || truthy key = true →
  get_models E url key w =
    let failed (e : exn) : exn :=
      if mentions_url (exn_str e)
      then HTTPException 400
             (lit "Invalid LLM URL (Did you include /openai/ for Gemini?): "
              ++ exn_str e)
      else HTTPException 500 (exn_str e) in
    match client_error E (models_client url key) with
    | Some e => (inl (failed e), w)
    | None =>
        match models_answer E (length (remote_calls w))
                (models_client url key) with
        | inr ids => (inr ids, sent (ModelsList (models_client url key)) w)
        | inl e => (inl (failed e), sent (ModelsList (models_client url key)) w)
        end
    end.
Proof.
  intros Hcfg. unfold get_models.
  replace (negb (truthy url) && negb (truthy key))
    with false by (by destruct (truthy url), (truthy key)).
  unfold try_except, construct, models_list, raise, models_client,
    mentions_url, mbind, M_bind.
  rewrite truthy_correct_llm_url.
  destruct (client_error _ _) as [e|].
  - set (urlish := _ || _ || _). by destruct urlish.
  - destruct (models_answer _ _ _) as [e | ids]; [|done].
    set (urlish := _ || _ || _). by destruct urlish.
Qed.

Lemma get_models_rejected (E : env) (url key : str) (w : world) :
  truthy url || truthy key = false →
  get_models E url key w
  = (inl (HTTPException 400 (lit "LLM URL or API Key is required.")), w).
Proof.
  intros Hcfg. apply orb_false_iff in Hcfg as [Hu Hk].
  unfold get_models. by rewrite Hu, Hk.
Qed.

Lemma get_models_sends (E : env) (url key : str) (w : world) :
  truthy url || truthy key = true →
  client_error E (models_client url key) = None →
  (get_models E url key w).2 = sent (ModelsList (models_client url key)) w.
Proof.
  intros Hcfg Hclient. rewrite get_models_run by done. cbv zeta.
  rewrite Hclient. by destruct (models_answer _ _ _).
Qed.

(** X9.  [get_models] never writes a file and never reads the clock,
    whatever it is given and whatever the outside answers.  It sends one
    request when a URL or a key is given and the client can be built,
    and none otherwise; when neither a URL nor a key is given it answers
    400. *)
Theorem get_models_only_asks (E : env) (url key : str) (w : world) :
  history_file (get_models E url key w).2 = history_file w
  ∧ artifacts (get_models E url key w).2 = artifacts w
  ∧ clock_reads (get_models E url key w).2 = clock_reads w
  ∧ (if truthy url || truthy key
     then match client_error E (models_client url key) with
          | None => remote_calls (get_models E url key w).2
                    = ModelsList (models_client url key) :: remote_calls w
          | Some _ => (get_models E url key w).2 = w
          end
     else get_models E url key w
          = (inl (HTTPException 400 (lit "LLM URL or API Key is required.")),
             w)).
Proof.
  destruct (truthy url || truthy key) eqn:Hcfg.
  - rewrite get_models_run by done. cbv zeta.
    destruct (client_error _ _); [done |].
    by destruct (models_answer _ _ _).
  - by rewrite get_models_rejected.
Qed.

(** X10.  When the client is built and the remote service lists its
    models, [get_models] returns the identifiers as they came, in their
    order; it has sent one request, with the key as given and the
    corrected URL as base URL (none when no URL was given), and has
    touched neither the files nor the clock. *)
Theorem get_models_lists_in_order (E : env) (url key : str) (w : world)
    (ids : list str) :
  truthy url || truthy key = true →
  client_error E
    (AsyncOpenAI key
       (if truthy url then Some (correct_llm_url url) else None)) = None →
  models_answer E (length (remote_calls w))
    (AsyncOpenAI key
       (if truthy url then Some (correct_llm_url url) else None))
  = inr ids →
  ∃ w', get_models E url key w = (inr ids, w')
        ∧ remote_calls w'
          = ModelsList
              (AsyncOpenAI key
                 (if truthy url then Some (correct_llm_url url) else None))
            :: remote_calls w
        ∧ history_file w' = history_file w
        ∧ artifacts w' = artifacts w
        ∧ clock_reads w' = clock_reads w.
Proof.
  intros Hcfg Hclient Hanswer. rewrite get_models_run by done.
  unfold models_client. cbv zeta. rewrite Hclient, Hanswer. by eexists.
Qed.

Lemma get_models_lists_in_order_witness :
  ∃ w', get_models sample_env (lit "localhost:1234/v1") [] fresh_world
        = (inr [lit "gpt-4o"], w')
        ∧ remote_calls w'
          = [ModelsList (AsyncOpenAI [] (Some (lit "http://localhost:1234/v1")))]
        ∧ history_file w' = None
        ∧ artifacts w' = ∅
        ∧ clock_reads w' = 0%nat.
Proof.
  apply (get_models_lists_in_order sample_env (lit "localhost:1234/v1") []
           fresh_world [lit "gpt-4o"]); reflexivity.
Defined.





(** ** [POST /generate], every outcome *)



(** X13.  When the client is built and the remote call returns no
    choice, or a first choice without content, each service answers 500
    and has written nothing. *)
Theorem generate_ui_without_content (E : env) (req : UIRequest) (w : world)
    (choices : list (option str)) :
  (∀ content, head choices ≠ Some (Some content)) →
  (truthy (api_key req) || truthy (llm_url req) = true →
   client_error E (Main.client_of req) = None →
   chat_answer E (length (remote_calls w))
     (Main.client_of req) (Main.chat_request_of req) = inr choices →
   ∃ detail,
     Main.generate_ui E req w
     = (inl (HTTPException 500 detail),
        sent (ChatCompletionsCreate (Main.client_of req)
                (Main.chat_request_of req)) w))
  ∧ (truthy (api_key req) = true →
     client_error E (GeminiApp.client_of req) = None →
     chat_answer E (length (remote_calls w))
       (GeminiApp.client_of req) (GeminiApp.chat_request_of req)
     = inr choices →
     ∃ detail,
       GeminiApp.generate_ui E req w
       = (inl (HTTPException 500 detail),
          sent (ChatCompletionsCreate (GeminiApp.client_of req)
                  (GeminiApp.chat_request_of req)) w)).
Proof.
  intros Hnone. split; intros Hcfg Hclient Hanswer.
  - rewrite main_generate_ui_run by done.
    unfold generation_outcome. rewrite Hclient, Hanswer.
    destruct choices as [| [content|] rest]; [by eexists | | by eexists].
    by destruct (Hnone content).
  - rewrite gemini_generate_ui_run by done.
    unfold generation_outcome. rewrite Hclient, Hanswer.
    destruct choices as [| [content|] rest]; [by eexists | | by eexists].
    by destruct (Hnone content).
Qed.

Lemma generate_ui_without_content_witness :
  ∃ detail,
    GeminiApp.generate_ui mute_env sample_request fresh_world
    = (inl (HTTPException 500 detail),
       sent (ChatCompletionsCreate (GeminiApp.client_of sample_request)
               (GeminiApp.chat_request_of sample_request)) fresh_world).
Proof.
  destruct (generate_ui_without_content mute_env sample_request fresh_world
              [None]) as [_ Hgemini]; [by intros content |].
  apply Hgemini; reflexivity.
Defined.

(** X14.  When the client is built and a content that can be encoded
    arrives, but the history file holds JSON that is not an array, each
    service answers 500 after it has written the artifact: the file is
    there, the history is as it was. *)
Theorem generate_ui_history_not_list (E : env) (req : UIRequest) (w : world)
    (v : pyval) (content : str) (rest : list (option str)) :
  load_history w = (inr v, w) →
  is_list v = false →
  encodable content = true →
  (truthy (api_key req) || truthy (llm_url req) = true →
   client_error E (Main.client_of req) = None →
   chat_answer E (length (remote_calls w))
     (Main.client_of req) (Main.chat_request_of req)
   = inr (Some content :: rest) →
   ∃ w',
     Main.generate_ui E req w
     = (inl (HTTPException 500
               (lit "'" ++ type_name v
                ++ lit "' object has no attribute 'insert'")), w')
     ∧ artifacts w'
       = <[artifact_name E w := Main.log_content (cleanup content)]>
           (artifacts w)
     ∧ history_file w' = history_file w)
  ∧ (truthy (api_key req) = true →
     client_error E (GeminiApp.client_of req) = None →
     chat_answer E (length (remote_calls w))
       (GeminiApp.client_of req) (GeminiApp.chat_request_of req)
     = inr (Some content :: rest) →
     ∃ w',
       GeminiApp.generate_ui E req w
       = (inl (HTTPException 500
                 (lit "'" ++ type_name v
                  ++ lit "' object has no attribute 'insert'")), w')
       ∧ artifacts w'
         = <[artifact_name E w := GeminiApp.log_content (cleanup content)]>
             (artifacts w)
       ∧ history_file w' = history_file w).
Proof.
  intros Hv Hlist Hcontent. apply stored_log_load in Hv.
  apply encodable_cleanup in Hcontent.
  split; intros Hcfg Hclient Hanswer.
  - rewrite main_generate_ui_run by done.
    unfold generation_outcome. rewrite Hclient, Hanswer, Hv.
    rewrite encode_error_encodable
      by by rewrite main_log_content_encodable.
    destruct v; try discriminate; by eexists.
  - rewrite gemini_generate_ui_run by done.
    unfold generation_outcome. rewrite Hclient, Hanswer, Hv.
    rewrite encode_error_encodable
      by by rewrite gemini_log_content_encodable.
    destruct v; try discriminate; by eexists.
Qed.

Lemma generate_ui_history_not_list_witness :
  ∃ w',
    Main.generate_ui sample_env sample_request object_world
    = (inl (HTTPException 500
              (lit "'dict' object has no attribute 'insert'")), w')
    ∧ artifacts w'
      = {[ lit "ui_20240517_093001.html"
           := Main.log_content (lit "<p>hi</p>") ]}
    ∧ history_file w' = Some (Encoded (PDict [])).
Proof.
  destruct (generate_ui_history_not_list sample_env sample_request
              object_world (PDict []) (lit "```html<p>hi</p>```") [])
    as [Hmain _]; [reflexivity | reflexivity | reflexivity |].
  apply Hmain; reflexivity.
Defined.

(** X25.  When the cleaned-up content holds a lone surrogate, each
    service answers 500 with the codec's message: the artifact file has
    been created but is empty, and no history entry is written. *)
Theorem generate_ui_unencodable_content (E : env) (req : UIRequest)
    (w : world) (content : str) (rest : list (option str)) :
  encodable (cleanup content) = false →
  (truthy (api_key req) || truthy (llm_url req) = true →
   client_error E (Main.client_of req) = None →
   chat_answer E (length (remote_calls w))
     (Main.client_of req) (Main.chat_request_of req)
   = inr (Some content :: rest) →
   ∃ message w',
     Main.generate_ui E req w = (inl (HTTPException 500 message), w')
     ∧ encode_error (Main.log_content (cleanup content)) = Some message
     ∧ artifacts w' = <[artifact_name E w := []]> (artifacts w)
     ∧ history_file w' = history_file w)
  ∧ (truthy (api_key req) = true →
     client_error E (GeminiApp.client_of req) = None →
     chat_answer E (length (remote_calls w))
       (GeminiApp.client_of req) (GeminiApp.chat_request_of req)
     = inr (Some content :: rest) →
     ∃ message w',
       GeminiApp.generate_ui E req w = (inl (HTTPException 500 message), w')
       ∧ encode_error (GeminiApp.log_content (cleanup content))
         = Some message
       ∧ artifacts w' = <[artifact_name E w := []]> (artifacts w)
       ∧ history_file w' = history_file w).
Proof.
  intros Hbad. split; intros Hcfg Hclient Hanswer.
  - destruct (encode_error_unencodable (Main.log_content (cleanup content)))
      as [message Hmessage]; [by rewrite main_log_content_encodable |].
    rewrite main_generate_ui_run by done.
    unfold generation_outcome. rewrite Hclient, Hanswer, Hmessage.
    by eexists _, _.
  - destruct (encode_error_unencodable
                (GeminiApp.log_content (cleanup content)))
      as [message Hmessage]; [by rewrite gemini_log_content_encodable |].
    rewrite gemini_generate_ui_run by done.
    unfold generation_outcome. rewrite Hclient, Hanswer, Hmessage.
    by eexists _, _.
Qed.

Lemma generate_ui_unencodable_content_witness :
  ∃ message w',
    GeminiApp.generate_ui surrogate_env sample_request fresh_world
    = (inl (HTTPException 500 message), w')
    ∧ encode_error
        (GeminiApp.log_content (cleanup (lit "<p>" ++ [55296] ++ lit "</p>")))
      = Some message
    ∧ artifacts w' = {[ lit "ui_20240517_093001.html" := [] ]}
    ∧ history_file w' = None.
Proof.
  destruct (generate_ui_unencodable_content surrogate_env sample_request
              fresh_world (lit "<p>" ++ [55296] ++ lit "</p>") [])
    as [_ Hgemini]; [reflexivity |].
  apply Hgemini; reflexivity.
Defined.

(** X15.  Whatever the request and whatever the outcome, a generation
    leaves every file of the log directory other than its own artifact
    with the content it had, or absent if it was absent. *)
Theorem generate_ui_touches_one_file (E : env) (req : UIRequest) (w : world)
    (name : str) :
  name ≠ artifact_name E w →
  artifacts (Main.generate_ui E req w).2 !! name = artifacts w !! name
  ∧ artifacts (GeminiApp.generate_ui E req w).2 !! name = artifacts w !! name.
Proof.
  intros Hname. split.
  - destruct (truthy (api_key req) || truthy (llm_url req)) eqn:Hcfg.
    + rewrite main_generate_ui_run by done. by apply outcome_other_files.
    + by rewrite main_generate_ui_rejected.
  - destruct (truthy (api_key req)) eqn:Hcfg.
    + rewrite gemini_generate_ui_run by done. by apply outcome_other_files.
    + by rewrite gemini_generate_ui_rejected.
Qed.

Lemma generate_ui_touches_one_file_witness :
  artifacts (Main.generate_ui sample_env sample_request fresh_world).2
    !! lit "ui_20240101_000000.html" = None
  ∧ artifacts (GeminiApp.generate_ui sample_env sample_request fresh_world).2
      !! lit "ui_20240101_000000.html" = None.
Proof.
  apply (generate_ui_touches_one_file sample_env sample_request fresh_world
           (lit "ui_20240101_000000.html")).
  discriminate.
Defined.



(** X17.  A history that loads as a list of at most 100 entries still
    does after any handler has run, whatever the request and the
    outside's answers. *)
Theorem handlers_keep_log_ok (E : env) (w : world) :
  log_ok w →
  (∀ req, log_ok (Main.generate_ui E req w).2)
  ∧ (∀ req, log_ok (GeminiApp.generate_ui E req w).2)
  ∧ (∀ url key, log_ok (get_models E url key w).2)
  ∧ log_ok (get_history w).2
  ∧ (∀ entry, log_ok (save_history E entry w).2).
Proof.
  intros Hok. repeat split.
  - intros req. destruct (truthy (api_key req) || truthy (llm_url req)) eqn:Hcfg.
    + rewrite main_generate_ui_run by done. by apply outcome_log_ok.
    + by rewrite main_generate_ui_rejected.
  - intros req. destruct (truthy (api_key req)) eqn:Hcfg.
    + rewrite gemini_generate_ui_run by done. by apply outcome_log_ok.
    + by rewrite gemini_generate_ui_rejected.
  - intros url key. destruct (truthy url || truthy key) eqn:Hcfg.
    + rewrite get_models_run by done. cbv zeta.
      destruct (client_error _ _); [done |].
      by destruct (models_answer _ _ _).
    + by rewrite get_models_rejected.
  - unfold get_history. by rewrite load_history_run.
  - intros entry. destruct Hok as (l & Hl & Hlen).
    unfold save_history, mbind, M_bind. rewrite load_history_run, Hl.
    unfold write_history_file. destruct (encodable_value _).
    + eexists. split; [reflexivity |]. rewrite length_take. lia.
    + exists []. split; [reflexivity | simpl; lia].
Qed.

Lemma handlers_keep_log_ok_witness :
  log_ok fresh_world
  ∧ log_ok (Main.generate_ui sample_env sample_request fresh_world).2.
Proof.
  assert (log_ok fresh_world) as Hok.
  { exists []. split; [reflexivity | simpl; lia]. }
  split; [exact Hok |].
  destruct (handlers_keep_log_ok sample_env fresh_world Hok) as [Hmain _].
  apply Hmain.
Defined.

(** X18.  A request with a URL but no API key is refused by the Gemini
    service (400, world unchanged); the other service goes on, and when
    the client can be built with the empty key it sends its chat request
    with that key to that URL. *)
Theorem credential_policies_differ (E : env) (req : UIRequest) (w : world) :
  api_key req = [] →
  llm_url req ≠ [] →
  GeminiApp.generate_ui E req w
  = (inl (HTTPException 400 (lit "Gemini API Key is required.")), w)
  ∧ (client_error E (AsyncOpenAI [] (Some (llm_url req))) = None →
     remote_calls (Main.generate_ui E req w).2
     = ChatCompletionsCreate (AsyncOpenAI [] (Some (llm_url req)))
         (Main.chat_request_of req)
       :: remote_calls w).
Proof.
  intros Hkey Hurl.
  assert (Main.client_of req = AsyncOpenAI [] (Some (llm_url req))) as Hc.
  { unfold Main.client_of. rewrite Hkey. by destruct (llm_url req). }
  split.
  - apply gemini_generate_ui_rejected. by rewrite Hkey.
  - intros Hclient.
    rewrite main_generate_ui_run, outcome_sends, Hc;
      [done | by rewrite Hc
       | destruct (llm_url req); [done | apply orb_true_r]].
Qed.

Lemma credential_policies_differ_witness :
  GeminiApp.generate_ui sample_env keyless_request fresh_world
  = (inl (HTTPException 400 (lit "Gemini API Key is required.")), fresh_world)
  ∧ remote_calls (Main.generate_ui sample_env keyless_request fresh_world).2
    = ChatCompletionsCreate
        (AsyncOpenAI [] (Some (llm_url keyless_request)))
        (Main.chat_request_of keyless_request)
      :: remote_calls fresh_world.
Proof.
  destruct (credential_policies_differ sample_env keyless_request fresh_world)
    as [Hgemini Hmain]; [reflexivity | discriminate |].
  split; [exact Hgemini | apply Hmain; reflexivity].
Defined.

(** X19.  With a key and a URL, both [generate_ui] hand the URL to the
    client as it was given, while [get_models] hands over the corrected
    one; when both clients can be built, the two handlers talk to
    different endpoints whenever the correction changes the URL. *)
Theorem generate_ui_uses_url_as_given (E : env) (req : UIRequest)
    (w : world) :
  truthy (api_key req) = true →
  llm_url req ≠ [] →
  client_error E (AsyncOpenAI (api_key req) (Some (llm_url req))) = None →
  client_error E
    (AsyncOpenAI (api_key req) (Some (correct_llm_url (llm_url req))))
  = None →
  remote_calls (Main.generate_ui E req w).2
  = ChatCompletionsCreate (AsyncOpenAI (api_key req) (Some (llm_url req)))
      (Main.chat_request_of req)
    :: remote_calls w
  ∧ remote_calls (GeminiApp.generate_ui E req w).2
    = ChatCompletionsCreate (AsyncOpenAI (api_key req) (Some (llm_url req)))
        (GeminiApp.chat_request_of req)
      :: remote_calls w
  ∧ remote_calls (get_models E (llm_url req) (api_key req) w).2
    = ModelsList
        (AsyncOpenAI (api_key req) (Some (correct_llm_url (llm_url req))))
      :: remote_calls w.
Proof.
  intros Hkey Hurl Hgiven Hcorrected.
  assert (Main.client_of req
          = AsyncOpenAI (api_key req) (Some (llm_url req))) as Hc.
  { unfold Main.client_of. by destruct (llm_url req). }
  assert (models_client (llm_url req) (api_key req)
          = AsyncOpenAI (api_key req) (Some (correct_llm_url (llm_url req))))
    as Hm.
  { unfold models_client. by destruct (llm_url req). }
  split; [| split].
  - rewrite main_generate_ui_run, outcome_sends, Hc;
      [done | by rewrite Hc | by rewrite Hkey].
  - by rewrite gemini_generate_ui_run, outcome_sends.
  - rewrite get_models_sends;
      [by rewrite Hm | rewrite Hkey; apply orb_true_r | by rewrite Hm].
Qed.

Lemma generate_ui_uses_url_as_given_witness :
  remote_calls (Main.generate_ui sample_env gemini_request fresh_world).2
  = [ChatCompletionsCreate
       (AsyncOpenAI (lit "AIza-test")
          (Some (lit "generativelanguage.googleapis.com/v1beta")))
       (Main.chat_request_of gemini_request)]
  ∧ remote_calls (GeminiApp.generate_ui sample_env gemini_request fresh_world).2
    = [ChatCompletionsCreate
         (AsyncOpenAI (lit "AIza-test")
            (Some (lit "generativelanguage.googleapis.com/v1beta")))
         (GeminiApp.chat_request_of gemini_request)]
  ∧ remote_calls
      (get_models sample_env (llm_url gemini_request)
         (api_key gemini_request) fresh_world).2
    = [ModelsList
         (AsyncOpenAI (lit "AIza-test")
            (Some (lit "http://generativelanguage.googleapis.com/v1beta/openai/")))].
Proof.
  apply (generate_ui_uses_url_as_given sample_env gemini_request fresh_world);
    [reflexivity | discriminate | reflexivity | reflexivity].
Defined.

(** X20.  In [gemini_app.py], on a successful generation, the model named
    in the chat request and the [model] recorded in the history entry
    are the same string, the [model] of the request, empty or not. *)
Theorem gemini_records_model_sent (E : env) (req : UIRequest) (w : world)
    (content : str) (rest : list (option str)) (l : list pyval) :
  truthy (api_key req) = true →
  client_error E (GeminiApp.client_of req) = None →
  chat_answer E (length (remote_calls w))
    (GeminiApp.client_of req) (GeminiApp.chat_request_of req)
  = inr (Some content :: rest) →
  load_history w = (inr (PList l), w) →
  encodable_value (PList l) = true →
  encodable content = true →
  encodable (user_action req) = true →
  encodable (model req) = true →
  ∃ w' cr,
    GeminiApp.generate_ui E req w = (inr {| html := cleanup content |}, w')
    ∧ remote_calls w'
      = ChatCompletionsCreate (GeminiApp.client_of req) cr :: remote_calls w
    ∧ chat_model cr = model req
    ∧ load_history w'
      = (inr (PList (take 100
           (PDict [(lit "intent", PStr (user_action req));
                   (lit "filename", PStr (artifact_name E w));
                   (lit "time",
                    PStr (strftime_HMS (clock E (clock_reads w))));
                   (lit "model", PStr (model req))]
            :: l))), w').
Proof.
  intros Hcfg Hclient Hanswer Hl Hlog Hcontent Haction Hmodel.
  eexists _, _.
  split; [by apply (gemini_generate_ui_success E req w content rest l) |].
  split; [done |]. split; [done | apply load_generated].
Qed.

Lemma gemini_records_model_sent_witness :
  ∃ w' cr,
    GeminiApp.generate_ui sample_env gemini_request fresh_world
    = (inr {| html := cleanup (lit "```html<p>hi</p>```") |}, w')
    ∧ remote_calls w'
      = ChatCompletionsCreate (GeminiApp.client_of gemini_request) cr
        :: remote_calls fresh_world
    ∧ chat_model cr = lit "gemini-1.5-pro-latest"
    ∧ load_history w'
      = (inr (PList
           [PDict [(lit "intent", PStr (lit "open settings"));
                   (lit "filename", PStr (lit "ui_20240517_093001.html"));
                   (lit "time", PStr (lit "09:30:00"));
                   (lit "model", PStr (lit "gemini-1.5-pro-latest"))]]), w').
Proof.
  apply (gemini_records_model_sent sample_env gemini_request fresh_world
           (lit "```html<p>hi</p>```") [] []); reflexivity.
Defined.

(** ** Artifact names *)

Lemma prints_back_two_table :
  forallb (prints_back 2) (List.map N.of_nat (seq 0 100)) = true.
Proof. vm_compute. reflexivity. Qed.

Lemma prints_back_four_table :
  forallb (prints_back 4) (List.map N.of_nat (seq 0 (N.to_nat 10000))) = true.
Proof. vm_compute. reflexivity. Qed.

Lemma prints_back_two (n : N) :
  n ≤ 99 →
  length (zfill 2 (str_of_N n)) = 2%nat
  ∧ decimal_value (zfill 2 (str_of_N n)) = n.
Proof.
  intros Hn. pose proof prints_back_two_table as Htable.
  rewrite forallb_forall in Htable.
  specialize (Htable n). unfold prints_back in Htable.
  rewrite andb_true_iff, Nat.eqb_eq, N.eqb_eq in Htable. apply Htable.
  clear Htable. rewrite <- (N2Nat.id n). apply in_map, in_seq. lia.
Qed.

Lemma prints_back_four (n : N) :
  n ≤ 9999 →
  length (zfill 4 (str_of_N n)) = 4%nat
  ∧ decimal_value (zfill 4 (str_of_N n)) = n.
Proof.
  intros Hn. pose proof prints_back_four_table as Htable.
  rewrite forallb_forall in Htable.
  specialize (Htable n). unfold prints_back in Htable.
  rewrite andb_true_iff, Nat.eqb_eq, N.eqb_eq in Htable. apply Htable.
  clear Htable. rewrite <- (N2Nat.id n). apply in_map, in_seq. lia.
Qed.

Lemma zfill_inj (width : nat) (n m : N) :
  decimal_value (zfill width (str_of_N n)) = n →
  decimal_value (zfill width (str_of_N m)) = m →
  zfill width (str_of_N n) = zfill width (str_of_N m) → n = m.
Proof. intros Hn Hm Heq. rewrite <- Hn, <- Hm. by rewrite Heq. Qed.

(** X21.  For clock readings with a four-digit year, the artifact name is
    23 code points long and determines the reading to the second: two
    generations get the same file name only if their file timestamps are
    the same second. *)
Theorem artifact_name_tells_seconds_apart (E : env) (w1 w2 : world) :
  valid_datetime (clock E (S (clock_reads w1))) →
  valid_datetime (clock E (S (clock_reads w2))) →
  length (artifact_name E w1) = 23%nat
  ∧ (artifact_name E w1 = artifact_name E w2 →
     clock E (S (clock_reads w1)) = clock E (S (clock_reads w2))).
Proof.
  unfold artifact_name.
  generalize (clock E (S (clock_reads w1))) (clock E (S (clock_reads w2))).
  intros [y1 m1 d1 H1 M1 S1] [y2 m2 d2 H2 M2 S2].
  unfold valid_datetime, strftime_Ymd_HMS. cbn [year month day hour minute second].
  intros (Hy1 & Hm1 & Hd1 & HH1 & HM1 & HS1) (Hy2 & Hm2 & Hd2 & HH2 & HM2 & HS2).
  destruct (prints_back_four y1) as [Ly1 Vy1]; [lia |].
  destruct (prints_back_four y2) as [Ly2 Vy2]; [lia |].
  destruct (prints_back_two m1) as [Lm1 Vm1]; [lia |].
  destruct (prints_back_two m2) as [Lm2 Vm2]; [lia |].
  destruct (prints_back_two d1) as [Ld1 Vd1]; [lia |].
  destruct (prints_back_two d2) as [Ld2 Vd2]; [lia |].
  destruct (prints_back_two H1) as [LH1 VH1]; [lia |].
  destruct (prints_back_two H2) as [LH2 VH2]; [lia |].
  destruct (prints_back_two M1) as [LM1 VM1]; [lia |].
  destruct (prints_back_two M2) as [LM2 VM2]; [lia |].
  destruct (prints_back_two S1) as [LS1 VS1]; [lia |].
  destruct (prints_back_two S2) as [LS2 VS2]; [lia |].
  split.
  - rewrite !length_app, Ly1, Lm1, Ld1, LH1, LM1, LS1. reflexivity.
  - intros Hname. apply app_inv_head in Hname.
    rewrite !app_assoc in Hname. apply app_inv_tail in Hname.
    rewrite <- !app_assoc in Hname.
    apply app_inj_1 in Hname as [Ey Hname]; [| congruence].
    apply app_inj_1 in Hname as [Em Hname]; [| congruence].
    apply app_inj_1 in Hname as [Ed Hname]; [| congruence].
    apply app_inj_1 in Hname as [_ Hname]; [| done].
    apply app_inj_1 in Hname as [EH Hname]; [| congruence].
    apply app_inj_1 in Hname as [EM ES]; [| congruence].
    apply zfill_inj in Ey, Em, Ed, EH, EM, ES; try done. by subst.
Qed.

Lemma artifact_name_tells_seconds_apart_witness :
  valid_datetime (clock sample_env 1)
  ∧ length (artifact_name sample_env fresh_world) = 23%nat.
Proof.
  assert (valid_datetime (clock sample_env 1)) as Hvalid.
  { unfold valid_datetime. cbn. lia. }
  split; [exact Hvalid |].
  by destruct (artifact_name_tells_seconds_apart sample_env fresh_world
                 fresh_world Hvalid Hvalid).
Defined.

(** X22.  Two generations of [main.py] in a row whose file timestamps
    print alike (the same second), both under the conditions of a
    successful generation, both succeed but share one artifact: the
    second write replaces the first, and the history holds two entries
    with the same [filename]. *)
Theorem same_second_overwrites (E : env) (req1 req2 : UIRequest) (w : world)
    (content1 content2 : str) (rest1 rest2 : list (option str))
    (l : list pyval) :
  truthy (api_key req1) || truthy (llm_url req1) = true →
  truthy (api_key req2) || truthy (llm_url req2) = true →
  client_error E (Main.client_of req1) = None →
  client_error E (Main.client_of req2) = None →
  load_history w = (inr (PList l), w) →
  encodable_value (PList l) = true →
  encodable content1 = true →
  encodable content2 = true →
  encodable (user_action req1) = true →
  encodable (user_action req2) = true →
  encodable (model req1) = true →
  encodable (model req2) = true →
  chat_answer E (length (remote_calls w))
    (Main.client_of req1) (Main.chat_request_of req1)
  = inr (Some content1 :: rest1) →
  chat_answer E (S (length (remote_calls w)))
    (Main.client_of req2) (Main.chat_request_of req2)
  = inr (Some content2 :: rest2) →
  strftime_Ymd_HMS (clock E (S (S (S (clock_reads w)))))
  = strftime_Ymd_HMS (clock E (S (clock_reads w))) →
  ∃ w1 w2,
    Main.generate_ui E req1 w = (inr {| html := cleanup content1 |}, w1)
    ∧ Main.generate_ui E req2 w1 = (inr {| html := cleanup content2 |}, w2)
    ∧ artifacts w2
      = <[artifact_name E w := Main.log_content (cleanup content2)]>
          (artifacts w)
    ∧ load_history w2
      = (inr (PList (take 100
           (PDict [(lit "intent", PStr (user_action req2));
                   (lit "filename", PStr (artifact_name E w));
                   (lit "time",
                    PStr (strftime_HMS (clock E (S (S (clock_reads w))))));
                   (lit "model", PStr (model req2))]
            :: PDict [(lit "intent", PStr (user_action req1));
                      (lit "filename", PStr (artifact_name E w));
                      (lit "time",
                       PStr (strftime_HMS (clock E (clock_reads w))));
                      (lit "model", PStr (model req1))]
            :: l))), w2).
Proof.
  intros Hcfg1 Hcfg2 Hclient1 Hclient2 Hl Hlog Hc1 Hc2 Ha1 Ha2 Hm1 Hm2
    Hanswer1 Hanswer2 Hstamp.
  pose proof (main_generate_ui_success E req1 w content1 rest1 l
                Hcfg1 Hclient1 Hanswer1 Hl Hc1 Ha1 Hm1 Hlog) as Hrun1.
  set (w1 := generated E req1 _ _ l w) in Hrun1.
  assert (artifact_name E w1 = artifact_name E w) as Hname.
  { unfold artifact_name. cbn [w1 generated clock_reads]. by rewrite Hstamp. }
  pose proof (main_generate_ui_success E req2 w1 content2 rest2 _
                Hcfg2 Hclient2 Hanswer2 (load_generated _ _ _ _ _ _)
                Hc2 Ha2 Hm2
                (encodable_log E req1 w _ l Ha1 Hm1
                   (encodable_strftime_HMS _) Hlog)) as Hrun2.
  exists w1. eexists. split; [exact Hrun1 |]. split; [exact Hrun2 |].
  split.
  - cbn [generated artifacts]. rewrite Hname. fold (artifact_name E w).
    cbn [w1 generated artifacts]. apply insert_insert_eq.
  - rewrite load_generated, Hname. do 2 f_equal. f_equal.
    apply (take_app_take 100 [_]).
Qed.

Lemma same_second_overwrites_witness :
  ∃ w1 w2,
    Main.generate_ui frozen_env sample_request fresh_world
    = (inr {| html := lit "<p>hi</p>" |}, w1)
    ∧ Main.generate_ui frozen_env gemini_request w1
      = (inr {| html := lit "<p>hi</p>" |}, w2)
    ∧ artifacts w2
      = {[ lit "ui_20240517_093000.html"
           := Main.log_content (lit "<p>hi</p>") ]}
    ∧ load_history w2
      = (inr (PList
           [PDict [(lit "intent", PStr (lit "open settings"));
                   (lit "filename", PStr (lit "ui_20240517_093000.html"));
                   (lit "time", PStr (lit "09:30:00"));
                   (lit "model", PStr (lit "gemini-1.5-pro-latest"))];
            PDict [(lit "intent", PStr (lit "open settings"));
                   (lit "filename", PStr (lit "ui_20240517_093000.html"));
                   (lit "time", PStr (lit "09:30:00"));
                   (lit "model", PStr [])]]), w2).
Proof.
  destruct (same_second_overwrites frozen_env sample_request gemini_request
              fresh_world (lit "```html<p>hi</p>```")
              (lit "```html<p>hi</p>```") [] [] [])
    as (w1 & w2 & Hrun1 & Hrun2 & Hfiles & Hlog);
    try reflexivity.
  exists w1, w2.
  split; [exact Hrun1 |]. split; [exact Hrun2 |].
  split; [exact Hfiles | exact Hlog].
Defined.
